(** * EPSS viewer ([app_gui.py]): validation, retrieval and display

    A shallow embedding of the logic of [EPSSViewer]: [is_valid_cve],
    [add_cve], [get_current_date], [fetch_epss_data], [calculate_epss]
    and [plot_bell_curve].

    - A Python [str] is a sequence of Unicode code points ([pystr]); a
      [float] is an IEEE 754 binary64 number ([SpecFloat]).
    - The widgets the methods read and write are the fields of a record
      ([gui]); the calls of [requests.get] are logged in the world.
    - A method is a computation [M A] that reads the environment (the
      network, the date), changes the world, and returns a value or
      raises; an exception is a value ([Raise e]) and leaves the world
      as it was when it was raised.
    - What the repository does not contain is a parameter: the
      character tables of the Unicode database, the grammar of [float]
      on strings and [np.exp]. *)

From Stdlib Require Import String Ascii.
From Stdlib Require Import List Bool Arith ZArith NArith Lia.
From Stdlib Require Import QArith Qabs Qround.
From Stdlib Require Import Floats.SpecFloat.
Import ListNotations.
Close Scope Q_scope.

Set Implicit Arguments.


(** * The program *)

(** ** Python strings *)

(** A [str] is a sequence of code points. *)
Definition pystr := list N.

(** The code points of an ASCII literal of the source. *)
Definition codes (s : string) : pystr :=
  map N_of_ascii (list_ascii_of_string s).

Definition streq (a b : pystr) : bool :=
  if list_eq_dec N.eq_dec a b then true else false.

(** [s.startswith(p)] *)
Fixpoint startswith (s p : pystr) {struct p} : bool :=
  match p, s with
  | [], _ => true
  | _ :: _, [] => false
  | c :: p', d :: s' => N.eqb c d && startswith s' p'
  end.

(** [s.split(sep)] for a one-character separator: the pieces between the
    occurrences of [sep]; the empty string splits into one empty piece. *)
Fixpoint split (sep : N) (s : pystr) : list pystr :=
  match s with
  | [] => [[]]
  | c :: r =>
      if N.eqb c sep then [] :: split sep r
      else match split sep r with
           | seg :: segs => (c :: seg) :: segs
           | [] => [[c]]
           end
  end.

(** [sep.join(segs)], the inverse of [split]. *)
Fixpoint join (sep : N) (segs : list pystr) : pystr :=
  match segs with
  | [] => []
  | [seg] => seg
  | seg :: rest => seg ++ sep :: join sep rest
  end.

(** [s1 in s2] for two strings: [s1] occurs in [s2] as a substring. *)
Fixpoint is_substring (p s : pystr) : bool :=
  startswith s p ||
  match s with
  | [] => false
  | _ :: r => is_substring p r
  end.

(** The [d] low-order decimal digits of [n], most significant first. *)
Fixpoint digits_fixed (d : nat) (n : N) : pystr :=
  match d with
  | O => []
  | S d' => digits_fixed d' (n / 10) ++ [(48 + n mod 10)%N]
  end.

Fixpoint drop_zeros (s : pystr) : pystr :=
  match s with
  | c :: ((_ :: _) as r) => if N.eqb c 48 then drop_zeros r else s
  | _ => s
  end.

(** [str(n)] for a natural number. *)
Definition str_of_N (n : N) : pystr :=
  drop_zeros (digits_fixed (S (N.size_nat n)) n).

(** [str(z)] for an integer. *)
Definition str_of_Z (z : Z) : pystr :=
  match z with
  | Zneg p => 45%N :: str_of_N (Npos p)
  | _ => str_of_N (Z.to_N z)
  end.

(** ** Floating-point numbers

    The operations are those of the standard library's executable
    specification of IEEE 754, rounding to nearest, ties to even. *)

Definition float := spec_float.
Definition prec : Z := 53.
Definition emax : Z := 1024.

Definition fmul : float -> float -> float := SFmul prec emax.
Definition fdiv : float -> float -> float := SFdiv prec emax.
Definition fsub : float -> float -> float := SFsub prec emax.
Definition fadd : float -> float -> float := SFadd prec emax.
Definition fneg : float -> float := SFopp.

(** The float nearest to the integer [z] (an infinity when out of range). *)
Definition float_of_Z (z : Z) : float := binary_normalize prec emax z 0 false.

(** The float nearest to [m * 10^e]: the value of a decimal literal. *)
Definition float_of_decimal (m e : Z) : float :=
  match e with
  | Zneg k =>
      match m with
      | Z0 => S754_zero false
      | Zpos p => fdiv (S754_finite false p 0) (S754_finite false (10 ^ k) 0)
      | Zneg p => fdiv (S754_finite true p 0) (S754_finite false (10 ^ k) 0)
      end
  | _ => float_of_Z (m * 10 ^ e)
  end.

(** [|x| * 10^d] rounded to the nearest integer, ties to even, for a
    positive finite [x = m * 2^e]. *)
Definition scaled_round (d : nat) (m : positive) (e : Z) : Z :=
  let num := (Zpos m * 10 ^ Z.of_nat d)%Z in
  match e with
  | Zneg k =>
      let den := Zpos (2 ^ k) in
      let q := (num / den)%Z in
      let r := (num mod den)%Z in
      match (2 * r ?= den)%Z with
      | Lt => q
      | Gt => (q + 1)%Z
      | Eq => if Z.even q then q else (q + 1)%Z
      end
  | _ => (num * 2 ^ e)%Z
  end.

(** The digits of [format(x, '.df')] for the scaled integer [n]. *)
Definition fixed_digits (d : nat) (n : Z) : pystr :=
  let unit := (10 ^ N.of_nat d)%N in
  str_of_N (Z.to_N n / unit)
  ++ match d with
     | O => []
     | _ => 46%N :: digits_fixed d (Z.to_N n mod unit)
     end.

Definition sign_text (s : bool) : pystr := if s then [45%N] else [].

(** [format(x, '.df')], as in the f-string fields [{x:.4f}] and [{x:.2f}]:
    the exact binary value rounded to [d] decimals, ties to even. *)
Definition format_f (d : nat) (x : float) : pystr :=
  match x with
  | S754_nan => codes "nan"
  | S754_infinity s => sign_text s ++ codes "inf"
  | S754_zero s => sign_text s ++ fixed_digits d 0
  | S754_finite s m e => sign_text s ++ fixed_digits d (scaled_round d m e)
  end.

(** ** Exceptions and outcomes of a call *)

Inductive exn :=
| RequestException (msg : pystr)  (* requests.exceptions.RequestException and subclasses *)
| KeyError
| ValueError
| IndexError
| TypeError
| OverflowError
| RecursionError.

Inductive outcome (A : Type) :=
| Ok (a : A)
| Raise (e : exn).
Arguments Ok {A} a.
Arguments Raise {A} e.

Definition rbind {A B} (r : outcome A) (k : A -> outcome B) : outcome B :=
  match r with
  | Ok a => k a
  | Raise e => Raise e
  end.

(** [a and b] on truth values: [b] is only evaluated when [a] is true. *)
Definition and_then (a : outcome bool) (b : outcome bool) : outcome bool :=
  rbind a (fun x => if x then b else Ok false).

(** [l[i]] for a list and a non-negative literal index. *)
Definition list_getitem {A} (l : list A) (i : nat) : outcome A :=
  match nth_error l i with
  | Some x => Ok x
  | None => Raise IndexError
  end.

(** ** [is_valid_cve] *)

Definition hyphen : N := 45.
Definition CVE_prefix : pystr := Eval cbv in codes "CVE-".

(** The character tables of the interpreter's Unicode database are not
    part of the repository: [isdigit_char c] says that [c] has
    Numeric_Type Digit or Decimal ([str.isdigit] on one character),
    [isspace_char c] that [c] is whitespace ([str.isspace], the
    characters [str.strip()] removes).  On ASCII both are fixed. *)
Definition ascii_isdigit (c : N) : bool := N.leb 48 c && N.leb c 57.
Definition ascii_isspace (c : N) : bool :=
  (N.leb 9 c && N.leb c 13) || (N.leb 28 c && N.leb c 32).

Section Viewer.

Set Default Proof Using "Type".

Variable isdigit_char : N -> bool.
Variable isspace_char : N -> bool.

(** [np.exp] on one float is the C library's, which the standard does
    not pin down to the last bit. *)
Variable np_exp : float -> float.

(** The grammar of [float(s)] on a string is the interpreter's:
    [float_of_str s] is the float it denotes, [None] when [float]
    raises [ValueError]. *)
Variable float_of_str : pystr -> option float.

(** [s.isdigit()]: at least one character, and all of them digits. *)
Definition isdigit (s : pystr) : bool :=
  match s with
  | [] => false
  | _ => forallb isdigit_char s
  end.

(** [EPSSViewer.is_valid_cve] *)
Definition is_valid_cve (cve : pystr) : outcome bool :=
  and_then (Ok (startswith cve CVE_prefix))
 (and_then (Ok (Nat.eqb (length (split hyphen cve)) 3))
 (and_then (rbind (list_getitem (split hyphen cve) 1) (fun s => Ok (isdigit s)))
           (rbind (list_getitem (split hyphen cve) 2) (fun s => Ok (isdigit s))))).

(** ** JSON values, as [response.json()] returns them *)

#[warnings="-register-all"]
Inductive json :=
| JNull
| JBool (b : bool)
| JInt (z : Z)
| JFloat (f : float)
| JStr (s : pystr)
| JList (l : list json)
| JDict (kv : list (pystr * json)).

(** Subscripts of the source: a string key or an integer index. *)
Inductive key :=
| KStr (s : pystr)
| KInt (i : nat).

Fixpoint assoc (k : pystr) (kv : list (pystr * json)) : option json :=
  match kv with
  | [] => None
  | (k', v) :: rest => if streq k k' then Some v else assoc k rest
  end.

(** Truth value of an object, as tested by [not v]. *)
Definition truthy (v : json) : bool :=
  match v with
  | JNull => false
  | JBool b => b
  | JInt z => negb (Z.eqb z 0)
  | JFloat (S754_zero _) => false
  | JFloat _ => true
  | JStr s => negb (Nat.eqb (length s) 0)
  | JList l => negb (Nat.eqb (length l) 0)
  | JDict kv => negb (Nat.eqb (length kv) 0)
  end.

Definition is_str (k : pystr) (v : json) : bool :=
  match v with
  | JStr s => streq k s
  | _ => false
  end.

(** [k in v] for a string [k]: key membership in a dict, element
    membership in a list, substring test in a string; the other types
    are not containers. *)
Definition contains (v : json) (k : pystr) : outcome bool :=
  match v with
  | JDict kv => Ok (match assoc k kv with Some _ => true | None => false end)
  | JList l => Ok (existsb (is_str k) l)
  | JStr s => Ok (is_substring k s)
  | _ => Raise TypeError
  end.

(** [v[k]].  The keys of a dict that comes from JSON are strings, so an
    integer subscript on a dict is a [KeyError]. *)
Definition getitem (v : json) (k : key) : outcome json :=
  match v, k with
  | JDict kv, KStr s =>
      match assoc s kv with
      | Some x => Ok x
      | None => Raise KeyError
      end
  | JDict _, KInt _ => Raise KeyError
  | JList l, KInt i => list_getitem l i
  | JStr s, KInt i => rbind (list_getitem s i) (fun c => Ok (JStr [c]))
  | _, _ => Raise TypeError
  end.

(** ** The window's state and the outside world *)

(** What [plot_bell_curve] draws on the axes, cleared first: the curve,
    the vertical line at the score, the title and the axis labels. *)
Record plot := {
  curve_x : list float;
  curve_y : list float;
  curve_label : pystr;
  marker_x : float;
  marker_color : pystr;
  marker_linestyle : pystr;
  marker_label : pystr;
  title : pystr;
  xlabel : pystr;
  ylabel : pystr
}.

(** The widgets the methods read and write: the text of [cve_input],
    the items of [cve_list] and its selected row, the text of
    [epss_score_label], and the contents of the axes. *)
Record gui := {
  cve_input : pystr;
  cve_list : list pystr;
  selected : option nat;
  epss_score_label : pystr;
  axes : option plot
}.

(** One call of [requests.get]. *)
Record request := {
  req_method : pystr;
  req_url : pystr;
  req_params : list (pystr * pystr);
  req_timeout : Z
}.

(** The failures of the JSON decoder that are not a [JSONDecodeError]:
    an integer literal of more digits than the interpreter converts
    (4300 by default from Python 3.11 on) is a plain [ValueError],
    arrays or objects nested beyond the recursion limit are a
    [RecursionError]. *)
Inductive decoder_fault :=
| IntegerTooLong
| NestingTooDeep.

Definition fault_exn (f : decoder_fault) : exn :=
  match f with
  | IntegerTooLong => ValueError
  | NestingTooDeep => RecursionError
  end.

(** What the call comes back with: a response object, or an exception
    of the [requests] library (connection error, timeout, ...) with
    its text.  The body of a response is seen through
    [response.json()]: it decodes to a value, or it is not JSON (with
    the text of the [JSONDecodeError]), or the decoder gives up on it
    with an exception of its own. *)
Inductive body :=
| Json (j : json)
| NotJson (msg : pystr)
| Undecoded (f : decoder_fault).

Record response := {
  status_code : Z;
  reason : pystr;
  url : pystr;
  content : body
}.

Inductive http_reply :=
| Failed (msg : pystr)
| Responded (r : response).

Record env := {
  network : request -> http_reply;
  today : pystr     (* date.today().strftime("%Y-%m-%d") *)
}.

Record world := {
  ui : gui;
  sent : list request   (* the calls of requests.get so far, oldest first *)
}.

(** Computations: read the environment, change the world, return a
    value or raise. *)
Definition M (A : Type) := env -> world -> outcome A * world.

Definition ret {A} (a : A) : M A := fun _ w => (Ok a, w).

Definition raise {A} (e : exn) : M A := fun _ w => (Raise e, w).

Definition bind {A B} (c : M A) (k : A -> M B) : M B :=
  fun en w =>
    match c en w with
    | (Ok a, w') => k a en w'
    | (Raise e, w') => (Raise e, w')
    end.

Definition lift {A} (r : outcome A) : M A := fun _ w => (r, w).

Declare Scope py_scope.
Delimit Scope py_scope with py.
Notation "x <- c ;; k" := (bind c (fun x => k))
  (at level 61, c at next level, right associativity) : py_scope.
Notation "c ;; k" := (bind c (fun _ => k))
  (at level 61, right associativity) : py_scope.
Local Open Scope py_scope.

(** [try: body except E as e: handler e] for the exceptions [E]
    that [catches] accepts. *)
Definition try_except {A} (body : M A) (catches : exn -> bool)
    (handler : exn -> M A) : M A :=
  fun en w =>
    match body en w with
    | (Raise e, w') => if catches e then handler e en w' else (Raise e, w')
    | r => r
    end.

Definition read {A} (f : gui -> A) : M A := fun _ w => (Ok (f (ui w)), w).

Definition update (f : gui -> gui) : M unit :=
  fun _ w => (Ok tt, {| ui := f (ui w); sent := sent w |}).

Definition set_cve_input (t : pystr) (g : gui) : gui :=
  {| cve_input := t; cve_list := cve_list g; selected := selected g;
     epss_score_label := epss_score_label g; axes := axes g |}.

Definition add_item (t : pystr) (g : gui) : gui :=
  {| cve_input := cve_input g; cve_list := cve_list g ++ [t];
     selected := selected g;
     epss_score_label := epss_score_label g; axes := axes g |}.

Definition set_selected (i : option nat) (g : gui) : gui :=
  {| cve_input := cve_input g; cve_list := cve_list g; selected := i;
     epss_score_label := epss_score_label g; axes := axes g |}.

Definition set_label (t : pystr) (g : gui) : gui :=
  {| cve_input := cve_input g; cve_list := cve_list g; selected := selected g;
     epss_score_label := t; axes := axes g |}.

Definition set_axes (p : plot) (g : gui) : gui :=
  {| cve_input := cve_input g; cve_list := cve_list g; selected := selected g;
     epss_score_label := epss_score_label g; axes := Some p |}.

(** [cve_list.selectedItems()], as the texts of the items. *)
Definition selectedItems (g : gui) : list pystr :=
  match selected g with
  | Some i =>
      match nth_error (cve_list g) i with
      | Some t => [t]
      | None => []
      end
  | None => []
  end.

(** ** The strings of the source *)

Definition API_URL : pystr := codes "https://api.first.org/data/v1/epss".
Definition initial_label : pystr := codes "EPSS Score: X    Percentile: XX".
Definition invalid_cve_text : pystr := codes "Invalid CVE format. Please try again.".
Definition select_cve_text : pystr := codes "Please select a CVE from the list.".
Definition no_data_text : pystr := codes "No data available or invalid API response.".
Definition processing_error_text : pystr := codes "Error processing API response.".
Definition fetch_error_text (e : pystr) : pystr := codes "Error fetching data: " ++ e.
Definition score_text (epss_score percentile : float) : pystr :=
  codes "EPSS Score: " ++ format_f 4 epss_score
  ++ codes "    Percentile: " ++ format_f 2 percentile.

(** ** [add_cve] *)

Fixpoint lstrip (s : pystr) : pystr :=
  match s with
  | [] => []
  | c :: r => if isspace_char c then lstrip r else s
  end.

Definition rstrip (s : pystr) : pystr := rev (lstrip (rev s)).

(** [s.strip()] *)
Definition strip (s : pystr) : pystr := rstrip (lstrip s).

Definition add_cve : M unit :=
  text <- read cve_input ;;
  let cve_text := strip text in
  ok <- lift (is_valid_cve cve_text) ;;
  if ok then
    update (add_item cve_text) ;;
    update (set_cve_input [])
  else
    update (set_label invalid_cve_text).

(** ** [get_current_date] *)

Definition get_current_date : M pystr := fun en w => (Ok (today en), w).

(** ** [fetch_epss_data] *)

(** [requests.get(url, params=params, timeout=timeout)]: the call is
    logged, and returns the response or raises. *)
Definition requests_get (u : pystr) (params : list (pystr * pystr))
    (timeout : Z) : M response :=
  fun en w =>
    let rq := {| req_method := codes "GET"; req_url := u; req_params := params;
                req_timeout := timeout |} in
    let w' := {| ui := ui w; sent := sent w ++ [rq] |} in
    match network en rq with
    | Failed msg => (Raise (RequestException msg), w')
    | Responded r => (Ok r, w')
    end.

(** [response.raise_for_status()]: an [HTTPError] for the 4xx and 5xx
    status codes, nothing for the others. *)
Definition raise_for_status (r : response) : M unit :=
  if ((400 <=? status_code r) && (status_code r <? 500))%Z then
    raise (RequestException
             (str_of_Z (status_code r) ++ codes " Client Error: " ++ reason r
              ++ codes " for url: " ++ url r))
  else if ((500 <=? status_code r) && (status_code r <? 600))%Z then
    raise (RequestException
             (str_of_Z (status_code r) ++ codes " Server Error: " ++ reason r
              ++ codes " for url: " ++ url r))
  else ret tt.

(** [response.json()]: a body that is not JSON raises the library's
    [JSONDecodeError], which is a [RequestException] (requests 2.27
    and later); the other exceptions of the decoder pass through the
    library as they are. *)
Definition response_json (r : response) : M json :=
  match content r with
  | Json j => ret j
  | NotJson msg => raise (RequestException msg)
  | Undecoded f => raise (fault_exn f)
  end.

Definition is_RequestException (e : exn) : bool :=
  match e with
  | RequestException _ => true
  | _ => false
  end.

Definition exn_text (e : exn) : pystr :=
  match e with
  | RequestException msg => msg
  | _ => []
  end.

(** The [None] the method returns is the value [JNull], which is also
    what a body [null] decodes to. *)
Definition fetch_epss_data (cve query_date : pystr) : M json :=
  let params := [(codes "cve", cve); (codes "date", query_date);
                 (codes "envelope", codes "true"); (codes "pretty", codes "true")] in
  try_except
    (response <- requests_get API_URL params 10 ;;
     raise_for_status response ;;
     response_json response)
    is_RequestException
    (fun e =>
       update (set_label (fetch_error_text (exn_text e))) ;;
       ret JNull).

(** ** [plot_bell_curve] *)

(** [np.linspace(start, stop, num)] for [num > 1] and a step that is
    not zero: the step is [(stop - start) / (num - 1)], the sample [i]
    is [i * step + start], and the last one is set to [stop]. *)
Definition linspace (start stop : float) (num : nat) : list float :=
  let step := fdiv (fsub stop start) (float_of_Z (Z.of_nat (num - 1))) in
  map (fun i => fadd (fmul (float_of_Z (Z.of_nat i)) step) start) (seq 0 (num - 1))
  ++ [stop].

Definition f_0_5 : float := float_of_decimal 5 (-1).
Definition f_0_1 : float := float_of_decimal 1 (-1).

(** [np.exp(-((x - 0.5) ** 2) / (2 * 0.1 ** 2))] at one sample *)
Definition density (x : float) : float :=
  let d := fsub x f_0_5 in
  np_exp (fdiv (fneg (fmul d d)) (fmul (float_of_Z 2) (fmul f_0_1 f_0_1))).

Definition plot_bell_curve (epss_score : float) : M unit :=
  let x := linspace (float_of_Z 0) (float_of_Z 1) 500 in
  let y := map density x in
  update (set_axes
    {| curve_x := x; curve_y := y; curve_label := codes "Bell Curve";
       marker_x := epss_score;
       marker_color := codes "r"; marker_linestyle := codes "--";
       marker_label := codes "EPSS Score: " ++ format_f 4 epss_score;
       title := codes "EPSS Score Distribution";
       xlabel := codes "Score"; ylabel := codes "Density" |}).

(** ** [calculate_epss] *)

(** [float(v)] *)
Definition py_float (v : json) : outcome float :=
  match v with
  | JFloat f => Ok f
  | JInt z =>
      match float_of_Z z with
      | S754_infinity _ => Raise OverflowError
      | f => Ok f
      end
  | JBool b => Ok (float_of_Z (if b then 1 else 0))
  | JStr s =>
      match float_of_str s with
      | Some f => Ok f
      | None => Raise ValueError
      end
  | _ => Raise TypeError
  end.

Definition is_parse_error (e : exn) : bool :=
  match e with
  | KeyError | ValueError | IndexError => true
  | _ => false
  end.

(** [not result or "data" not in result or not result["data"]] *)
Definition no_data (result : json) : outcome bool :=
  if negb (truthy result) then Ok true
  else
    rbind (contains result (codes "data")) (fun has =>
    if negb has then Ok true
    else rbind (getitem result (KStr (codes "data"))) (fun d =>
         Ok (negb (truthy d)))).

(** [float(result["data"][0][field])] *)
Definition read_field (result : json) (field : pystr) : outcome float :=
  rbind (getitem result (KStr (codes "data"))) (fun d =>
  rbind (getitem d (KInt 0)) (fun d0 =>
  rbind (getitem d0 (KStr field)) py_float)).

(** The second half of [calculate_epss], from the test of [result] on:
    what is shown for a value [fetch_epss_data] returned. *)
Definition show_result (result : json) : M unit :=
  nd <- lift (no_data result) ;;
  if nd then update (set_label no_data_text)
  else
    try_except
      (epss_score <- lift (read_field result (codes "epss")) ;;
       p <- lift (read_field result (codes "percentile")) ;;
       let percentile := fmul p (float_of_Z 100) in
       update (set_label (score_text epss_score percentile)) ;;
       plot_bell_curve epss_score)
      is_parse_error
      (fun _ => update (set_label processing_error_text)).

Definition calculate_epss : M unit :=
  selected_items <- read selectedItems ;;
  match selected_items with
  | [] => update (set_label select_cve_text)
  | cve_id :: _ =>
      query_date <- get_current_date ;;
      result <- fetch_epss_data cve_id query_date ;;
      show_result result
  end.

(** ** The window over time *)

Definition initial_gui : gui :=
  {| cve_input := []; cve_list := []; selected := None;
     epss_score_label := initial_label; axes := None |}.

Definition initial_world : world := {| ui := initial_gui; sent := [] |}.

(** What the user can do: edit the input field, select a row of the
    list (or none), press one of the two buttons. *)
Inductive event :=
| EditInput (t : pystr)
| SelectRow (i : option nat)
| ClickAdd
| ClickCalculate.

Definition select_row (i : option nat) (g : gui) : gui :=
  match i with
  | Some n => if Nat.ltb n (length (cve_list g)) then set_selected i g else g
  | None => set_selected None g
  end.

Definition handle (ev : event) : M unit :=
  match ev with
  | EditInput t => update (set_cve_input t)
  | SelectRow i => update (select_row i)
  | ClickAdd => add_cve
  | ClickCalculate => calculate_epss
  end.

(** The worlds the window can be in: the initial one, and the one any
    event leaves behind, whatever the network and the date are and
    whether or not the handler raised. *)
Inductive reachable : world -> Prop :=
| reachable_init : reachable initial_world
| reachable_step : forall w ev en,
    reachable w -> reachable (snd (handle ev en w)).

(** * The vocabulary of the statements *)

(** ** Identifiers *)

(** The pattern [CVE-<digits>-<digits>] of the specification, with
    the digits of [str.isdigit]. *)
Definition all_digits (s : pystr) : Prop :=
  s <> [] /\ Forall (fun c => isdigit_char c = true) s.

Definition matches_cve_pattern (s : pystr) : Prop :=
  exists year seq,
    s = CVE_prefix ++ year ++ hyphen :: seq /\ all_digits year /\ all_digits seq.

Definition all_space (s : pystr) : Prop :=
  Forall (fun c => isspace_char c = true) s.

(** ** Worlds *)

(** [c] respects [R]: the world it leaves behind, returning or raising,
    is related to the one it started in. *)
Definition keeps (R : world -> world -> Prop) {A} (c : M A) : Prop :=
  forall en w, R w (snd (c en w)).

(** The list of identifiers is the same in both worlds. *)
Definition same_list (w w' : world) : Prop :=
  cve_list (ui w') = cve_list (ui w).

(** No request was sent between the two worlds. *)
Definition same_sent (w w' : world) : Prop := sent w' = sent w.

Definition with_label (t : pystr) (w : world) : world :=
  {| ui := set_label t (ui w); sent := sent w |}.

(** What [plot_bell_curve] leaves on the axes. *)
Definition bell_curve (epss_score : float) : plot :=
  let x := linspace (float_of_Z 0) (float_of_Z 1) 500 in
  {| curve_x := x; curve_y := map density x; curve_label := codes "Bell Curve";
     marker_x := epss_score;
     marker_color := codes "r"; marker_linestyle := codes "--";
     marker_label := codes "EPSS Score: " ++ format_f 4 epss_score;
     title := codes "EPSS Score Distribution";
     xlabel := codes "Score"; ylabel := codes "Density" |}.

Definition with_score (epss_score percentile : float) (w : world) : world :=
  {| ui := set_axes (bell_curve epss_score)
             (set_label (score_text epss_score percentile) (ui w));
     sent := sent w |}.

(** The request of [fetch_epss_data], written out. *)
Definition epss_request (cve query_date : pystr) : request :=
  {| req_method := codes "GET";
     req_url := codes "https://api.first.org/data/v1/epss";
     req_params := [(codes "cve", cve); (codes "date", query_date);
                    (codes "envelope", codes "true"); (codes "pretty", codes "true")];
     req_timeout := 10 |}.

(** ** Outcomes of a query *)

(** The shape of a body in which [result["data"][0]] is a record:
    a dict whose [data] is a list that begins with a dict. *)
Definition first_record (result : json) : option (list (pystr * json)) :=
  match result with
  | JDict kv =>
      match assoc (codes "data") kv with
      | Some (JList (JDict fields :: _)) => Some fields
      | _ => None
      end
  | _ => None
  end.

(** The two conversions succeed: the case the specification calls
    [Success{score, percentile}]. *)
Definition is_success (result : json) (score percentile : float) : Prop :=
  no_data result = Ok false
  /\ read_field result (codes "epss") = Ok score
  /\ read_field result (codes "percentile") = Ok percentile.

(** The failures of the transport layer, with the text of the
    exception: no response, a 4xx or 5xx status, a body that is not
    JSON. *)
Definition transport_failure (reply : http_reply) (text : pystr) : Prop :=
  match reply with
  | Failed msg => text = msg
  | Responded r =>
      if ((400 <=? status_code r) && (status_code r <? 500))%Z then
        text = str_of_Z (status_code r) ++ codes " Client Error: " ++ reason r
               ++ codes " for url: " ++ url r
      else if ((500 <=? status_code r) && (status_code r <? 600))%Z then
        text = str_of_Z (status_code r) ++ codes " Server Error: " ++ reason r
               ++ codes " for url: " ++ url r
      else content r = NotJson text
  end.

(** A response that [raise_for_status] lets through, with a JSON body. *)
Definition delivers (reply : http_reply) (result : json) : Prop :=
  exists r,
    reply = Responded r
    /\ ((400 <=? status_code r) && (status_code r <? 600))%Z = false
    /\ content r = Json result.

(** A response that [raise_for_status] lets through, on whose body
    the decoder raises [e], which is not a [RequestException]. *)
Definition decoding_fails (reply : http_reply) (e : exn) : Prop :=
  exists r f,
    reply = Responded r
    /\ ((400 <=? status_code r) && (status_code r <? 600))%Z = false
    /\ content r = Undecoded f
    /\ e = fault_exn f.



Definition field_reads (fields : list (pystr * json)) (field : pystr)
    (x : float) : Prop :=
  exists v, assoc field fields = Some v /\ py_float v = Ok x.

(** ** Decimal texts *)

(** The number a string of decimal digits denotes. *)
Definition decimal_value (s : pystr) : N :=
  fold_left (fun acc c => (10 * acc + (c - 48))%N) s 0%N.

Definition all_ascii_digits (s : pystr) : Prop :=
  Forall (fun c => ascii_isdigit c = true) s.

(** What it is for [t] to be [x] written with [d] decimals: the sign,
    digits, a point and [d] digits, which read as an integer nearest to
    [|x| * 10^d]. *)
Definition fixed_repr (d : nat) (x : float) (t : pystr) : Prop :=
  match x with
  | S754_nan => t = codes "nan"
  | S754_infinity s => t = sign_text s ++ codes "inf"
  | S754_zero s => t = sign_text s ++ 48%N :: 46%N :: repeat 48%N d
  | S754_finite s m e =>
      exists whole frac,
        t = sign_text s ++ whole ++ 46%N :: frac
        /\ whole <> [] /\ all_ascii_digits whole
        /\ all_ascii_digits frac /\ length frac = d
        /\ let n := Z.of_N (decimal_value whole * 10 ^ N.of_nat d + decimal_value frac) in
           (2 * Z.abs (n * 2 ^ Z.max 0 (- e) - Zpos m * 10 ^ Z.of_nat d * 2 ^ Z.max 0 e)
            <= 2 ^ Z.max 0 (- e))%Z
  end.

(** ** The curve *)







(** The x-values of the curve. *)
Definition sample_x : list float := linspace (float_of_Z 0) (float_of_Z 1) 500.

(** ** Inputs and instances

    The inputs at which the statements are evaluated, and one character
    table, one [np.exp] and one [float] grammar to apply them to. *)

(** A table with some of the non-ASCII digits and spaces: superscript
    two, three and one, the Arabic-Indic digits; NEL, the no-break
    space, the en quad .. hair space range and the ideographic space. *)
Definition sample_isdigit (c : N) : bool :=
  ascii_isdigit c || N.eqb c 178 || N.eqb c 179 || N.eqb c 185
  || (N.leb 1632 c && N.leb c 1641).
Definition sample_isspace (c : N) : bool :=
  ascii_isspace c || N.eqb c 133 || N.eqb c 160
  || (N.leb 8192 c && N.leb c 8202) || N.eqb c 12288.

(** [exp] by its power series, in floating point. *)
Fixpoint exp_terms (fuel : nat) (k : Z) (x term acc : float) : float :=
  match fuel with
  | O => acc
  | S fuel' =>
      let term' := fdiv (fmul term x) (float_of_Z k) in
      exp_terms fuel' (k + 1) x term' (fadd acc term')
  end.

Definition exp_series (x : float) : float :=
  exp_terms 100 1 x (float_of_Z 1) (float_of_Z 1).

(** The plain decimal part of the grammar of [float]: an optional
    sign, digits, and an optional point followed by digits. *)
Fixpoint read_digits (s : pystr) (acc : N) (count : nat) : N * nat * pystr :=
  match s with
  | c :: r =>
      if ascii_isdigit c then read_digits r (10 * acc + (c - 48))%N (S count)
      else (acc, count, s)
  | [] => (acc, count, [])
  end.

Definition decimal_float_of_str (s : pystr) : option float :=
  let '(negative, body) :=
    match s with
    | 45%N :: r => (true, r)
    | 43%N :: r => (false, r)
    | _ => (false, s)
    end in
  let '(whole, n1, rest) := read_digits body 0%N 0 in
  let '(all, n2, rest') :=
    match rest with
    | 46%N :: r => read_digits r whole 0
    | _ => (whole, 0, rest)
    end in
  match rest', (n1 + n2)%nat with
  | [], S _ =>
      let x := float_of_decimal (Z.of_N all) (- Z.of_nat n2) in
      Some (if negative then fneg x else x)
  | _, _ => None
  end.

(** The body [{"data": [{"epss": e, "percentile": p}]}] with two
    strings. *)
Definition score_body (e p : pystr) : json :=
  JDict [(codes "data",
          JList [JDict [(codes "epss", JStr e); (codes "percentile", JStr p)]])].

(** At the failing input of C6: the body
    [{"data": [{"epss": null, "percentile": "0.9"}]}]. *)
Definition null_score_body : json :=
  JDict [(codes "data",
          JList [JDict [(codes "epss", JNull);
                        (codes "percentile", JStr (codes "0.9"))]])].

(** The URL of the request for [CVE-2023-1234] on that day. *)
Definition query_url : pystr :=
  codes "https://api.first.org/data/v1/epss?cve=CVE-2023-1234&date=2024-05-17&envelope=true&pretty=true".

(** A response with a JSON body. *)
Definition reply_of (status : Z) (reason : string) (j : json) : http_reply :=
  Responded {| status_code := status; reason := codes reason;
               url := query_url; content := Json j |}.

(** A response with status 200 on whose body the decoder raises. *)
Definition reply_undecoded (f : decoder_fault) : http_reply :=
  Responded {| status_code := 200; reason := codes "OK";
               url := query_url; content := Undecoded f |}.

Definition env_of (reply : http_reply) : env :=
  {| network := fun _ => reply; today := codes "2024-05-17" |}.

(** The window after [CVE-2023-1234] was added and selected. *)
Definition selected_world : world :=
  {| ui := {| cve_input := []; cve_list := [codes "CVE-2023-1234"];
              selected := Some 0; epss_score_label := initial_label;
              axes := None |};
     sent := [] |}.

(** The same window after one request for that identifier. *)
Definition sent_one : world :=
  {| ui := ui selected_world;
     sent := [epss_request (codes "CVE-2023-1234") (codes "2024-05-17")] |}.

(** [CVE-], the superscript two (U+00B2), a hyphen and the
    Arabic-Indic digit one (U+0661). *)
Definition CVE_other_digits : pystr := [67; 86; 69; 45; 178; 45; 1633]%N.

(** The initial window with [t] typed into the input field. *)
Definition typed_world (t : pystr) : world :=
  {| ui := set_cve_input t initial_gui; sent := [] |}.

Definition offline : env := env_of (Failed (codes "Connection refused")).

(** ** Sessions and dates *)

(** A session: the events of the user, each with the network and the
    date it meets, played from a world on. *)
Fixpoint play (evs : list (event * env)) (w : world) : world :=
  match evs with
  | [] => w
  | (ev, en) :: rest => play rest (snd (handle ev en w))
  end.

Definition is_calculate (ev : event) : bool :=
  match ev with
  | ClickCalculate => true
  | _ => false
  end.

(** The presses on [Calculate] in a session. *)
Definition calculate_clicks (evs : list (event * env)) : nat :=
  length (filter (fun p => is_calculate (fst p)) evs).

Definition is_add (ev : event) : bool :=
  match ev with
  | ClickAdd => true
  | _ => false
  end.

(** The presses on [Add] in a session. *)
Definition add_clicks (evs : list (event * env)) : nat :=
  length (filter (fun p => is_add (fst p)) evs).

(** The body [{"data": [{"epss": e, "percentile": p}]}] with two
    booleans. *)
Definition boolean_body (e p : bool) : json :=
  JDict [(codes "data",
          JList [JDict [(codes "epss", JBool e); (codes "percentile", JBool p)]])].

(** The widgets [calculate_epss] only reads are the same in both
    worlds. *)
Definition same_inputs (w w' : world) : Prop :=
  cve_list (ui w') = cve_list (ui w)
  /\ cve_input (ui w') = cve_input (ui w)
  /\ selected (ui w') = selected (ui w).

(** A request of [fetch_epss_data] for an identifier that
    [is_valid_cve] accepts. *)
Definition valid_request (rq : request) : Prop :=
  exists cve query_date,
    rq = epss_request cve query_date /\ is_valid_cve cve = Ok true.

(** The exceptions of a subscript and of [float]. *)
Definition may_escape (e : exn) : Prop :=
  is_parse_error e = true \/ e = TypeError \/ e = OverflowError.

(** The argument [plot_bell_curve] gives to [np.exp] at the sample [x]:
    [-((x - 0.5) ** 2) / (2 * 0.1 ** 2)]. *)
Definition exponent (x : float) : float :=
  let d := fsub x f_0_5 in
  fdiv (fneg (fmul d d)) (fmul (float_of_Z 2) (fmul f_0_1 f_0_1)).

(** A string of ASCII characters. *)
Definition is_ascii (s : pystr) : Prop := Forall (fun c => (c < 128)%N) s.

(** The pattern [CVE-<digits>-<digits>] with the digits 0 to 9. *)
Definition matches_ascii_cve_pattern (s : pystr) : Prop :=
  exists year seq,
    s = CVE_prefix ++ year ++ hyphen :: seq
    /\ year <> [] /\ seq <> []
    /\ all_ascii_digits year /\ all_ascii_digits seq.

(** A [datetime.date]. *)
Record date := {
  year : N;
  month : N;
  day : N
}.

(** [d.strftime("%Y-%m-%d")]: the year as a decimal number, the month
    and the day with two digits. *)
Definition strftime_ymd (d : date) : pystr :=
  str_of_N (year d) ++ hyphen :: digits_fixed 2 (month d)
  ++ hyphen :: digits_fixed 2 (day d).

(** The dates of the years with four digits. *)
Definition four_digit_date (d : date) : Prop :=
  (1000 <= year d <= 9999 /\ 1 <= month d <= 12 /\ 1 <= day d <= 31)%N.

(** The environment on the day [d]. *)
Definition env_on (d : date) (net : request -> http_reply) : env :=
  {| network := net; today := strftime_ymd d |}.

(** * Properties *)

(** What is known of the character tables: their ASCII part, and that
    no digit is whitespace. *)
Hypothesis isdigit_ascii :
  forall c, (c < 128)%N -> isdigit_char c = ascii_isdigit c.
Hypothesis isspace_ascii :
  forall c, (c < 128)%N -> isspace_char c = ascii_isspace c.
Hypothesis digit_not_space :
  forall c, isdigit_char c = true -> isspace_char c = false.

(** ** Strings *)

Lemma startswith_prefix (s p : pystr) :
  startswith s p = true <-> exists r, s = p ++ r.
Proof.
  revert s; induction p as [|c p IH]; intros s; simpl.
  - split; [intros _; now exists s | reflexivity].
  - destruct s as [|d s].
    + split; [discriminate | intros [r H]; discriminate].
    + rewrite andb_true_iff, N.eqb_eq, IH. split.
      * intros [-> [r ->]]. now exists r.
      * intros [r H]. injection H as -> ->. split; [reflexivity | now exists r].
Qed.

Lemma split_not_nil (sep : N) (s : pystr) : split sep s <> [].
Proof.
  destruct s as [|c r]; simpl; [discriminate|].
  destruct (N.eqb c sep); [discriminate|].
  destruct (split sep r); discriminate.
Qed.

Lemma split_cons_other (sep c : N) (r : pystr) :
  c <> sep ->
  split sep (c :: r) = (c :: hd [] (split sep r)) :: tl (split sep r).
Proof.
  intros Hc. simpl. apply N.eqb_neq in Hc. rewrite Hc.
  destruct (split sep r) eqn:E; [|reflexivity].
  now apply split_not_nil in E.
Qed.

Lemma split_no_sep (sep : N) (a : pystr) :
  ~ In sep a -> split sep a = [a].
Proof.
  induction a as [|c a IH]; intros Hn; [reflexivity|].
  rewrite split_cons_other by (intros ->; apply Hn; now left).
  rewrite IH by (intros H; apply Hn; now right). reflexivity.
Qed.

Lemma split_app (sep : N) (a r : pystr) :
  ~ In sep a -> split sep (a ++ sep :: r) = a :: split sep r.
Proof.
  induction a as [|c a IH]; intros Hn.
  - simpl. now rewrite N.eqb_refl.
  - rewrite <- app_comm_cons.
    rewrite split_cons_other by (intros ->; apply Hn; now left).
    rewrite IH by (intros H; apply Hn; now right). reflexivity.
Qed.

Lemma join_split (sep : N) (s : pystr) : join sep (split sep s) = s.
Proof.
  induction s as [|c r IH]; [reflexivity|].
  simpl split. destruct (N.eqb_spec c sep) as [->|Hc].
  - pose proof (split_not_nil sep r) as Hn.
    destruct (split sep r) as [|seg segs]; [contradiction|].
    simpl in *. now rewrite IH.
  - pose proof (split_not_nil sep r) as Hn.
    destruct (split sep r) as [|seg segs]; [contradiction|].
    destruct segs; simpl in *; now rewrite <- IH.
Qed.

(** ** [is_valid_cve] *)

Lemma isdigit_all_digits (s : pystr) : isdigit s = true <-> all_digits s.
Proof.
  unfold isdigit, all_digits. destruct s as [|c r].
  - split; [discriminate | intros [H _]; congruence].
  - rewrite forallb_forall, Forall_forall. split.
    + intros H; split; [discriminate | exact H].
    + intros [_ H]; exact H.
Qed.

Lemma digits_no_hyphen (s : pystr) : all_digits s -> ~ In hyphen s.
Proof using isdigit_ascii.
  intros [_ H] Hin. rewrite Forall_forall in H. apply H in Hin.
  rewrite isdigit_ascii in Hin by reflexivity. discriminate.
Qed.

(** [is_valid_cve] without the plumbing of [and]. *)
Lemma is_valid_cve_unfold (cve : pystr) :
  is_valid_cve cve =
  Ok (startswith cve CVE_prefix
      && Nat.eqb (length (split hyphen cve)) 3
      && isdigit (nth 1 (split hyphen cve) [])
      && isdigit (nth 2 (split hyphen cve) [])).
Proof.
  unfold is_valid_cve, and_then, rbind, list_getitem.
  destruct (startswith cve CVE_prefix); [|reflexivity].
  destruct (split hyphen cve) as [|a [|b [|c [|d l]]]]; try reflexivity.
  simpl. destruct (isdigit b); reflexivity.
Qed.

Lemma is_valid_cve_true (cve : pystr) :
  is_valid_cve cve = Ok true <->
  startswith cve CVE_prefix = true
  /\ length (split hyphen cve) = 3
  /\ all_digits (nth 1 (split hyphen cve) [])
  /\ all_digits (nth 2 (split hyphen cve) []).
Proof.
  rewrite is_valid_cve_unfold, <- !isdigit_all_digits, <- Nat.eqb_eq.
  split.
  - intros H. injection H as H. rewrite !andb_true_iff in H.
    destruct H as [[[H1 H2] H3] H4]. auto.
  - intros (H1 & H2 & H3 & H4). now rewrite H1, H2, H3, H4.
Qed.

Lemma is_valid_cve_pattern (cve : pystr) :
  is_valid_cve cve = Ok true <-> matches_cve_pattern cve.
Proof using isdigit_ascii.
  rewrite is_valid_cve_true. unfold matches_cve_pattern. split.
  - intros (Hp & Hl & H1 & H2).
    apply startswith_prefix in Hp. destruct Hp as [r ->].
    change (CVE_prefix ++ r) with ([67; 86; 69]%N ++ hyphen :: r) in *.
    rewrite split_app in * by (simpl; intros [H|[H|[H|[]]]]; discriminate).
    pose proof (join_split hyphen r) as Hj.
    destruct (split hyphen r) as [|year [|seq [|x l]]]; try discriminate.
    simpl in *. exists year, seq. subst r. auto.
  - intros (year & seq & -> & Hy & Hs).
    change (CVE_prefix ++ year ++ hyphen :: seq)
      with ([67; 86; 69]%N ++ hyphen :: year ++ hyphen :: seq).
    rewrite split_app by (simpl; intros [H|[H|[H|[]]]]; discriminate).
    rewrite split_app by now apply digits_no_hyphen.
    rewrite split_no_sep by now apply digits_no_hyphen.
    simpl. split; [reflexivity | auto].
Qed.

Lemma is_valid_cve_returns (cve : pystr) :
  is_valid_cve cve = Ok true \/ is_valid_cve cve = Ok false.
Proof. rewrite is_valid_cve_unfold. destruct (_ && _); auto. Qed.

Lemma digits_ascii (s : pystr) :
  is_ascii s -> (Forall (fun c => isdigit_char c = true) s <-> all_ascii_digits s).
Proof using isdigit_ascii.
  unfold is_ascii, all_ascii_digits. rewrite !Forall_forall. intros Ha. split.
  - intros H c Hin. rewrite <- isdigit_ascii by now apply Ha. now apply H.
  - intros H c Hin. rewrite isdigit_ascii by now apply Ha. now apply H.
Qed.

Lemma ascii_digits_ascii (s : pystr) : all_ascii_digits s -> is_ascii s.
Proof.
  unfold is_ascii, all_ascii_digits. apply Forall_impl. intros c H.
  unfold ascii_isdigit in H. apply andb_true_iff in H. rewrite !N.leb_le in H. lia.
Qed.

(** On ASCII strings the two patterns are one. *)
Lemma ascii_pattern (cve : pystr) :
  is_ascii cve -> (matches_cve_pattern cve <-> matches_ascii_cve_pattern cve).
Proof using isdigit_ascii.
  intros Ha. unfold matches_cve_pattern, matches_ascii_cve_pattern, all_digits.
  split; intros (y & q & E & H).
  - subst cve. unfold is_ascii in Ha.
    apply Forall_app in Ha. destruct Ha as [_ Ha].
    apply Forall_app in Ha. destruct Ha as [Hy Hq].
    apply Forall_inv_tail in Hq.
    destruct H as [[Ny Dy] [Nq Dq]].
    exists y, q. repeat split; auto; now apply digits_ascii.
  - subst cve. unfold is_ascii in Ha.
    apply Forall_app in Ha. destruct Ha as [_ Ha].
    apply Forall_app in Ha. destruct Ha as [Hy Hq].
    apply Forall_inv_tail in Hq.
    destruct H as (Ny & Nq & Dy & Dq).
    exists y, q. repeat split; auto; now apply digits_ascii.
Qed.

Lemma ascii_pattern_is_ascii (cve : pystr) :
  matches_ascii_cve_pattern cve -> is_ascii cve.
Proof.
  intros (y & q & -> & _ & _ & Hy & Hq). unfold is_ascii.
  apply Forall_app. split; [repeat constructor|].
  apply Forall_app. split; [now apply ascii_digits_ascii|].
  constructor; [reflexivity | now apply ascii_digits_ascii].
Qed.

(** C1 (amended).  For every string, [is_valid_cve] returns (it never
    raises); it returns [True] exactly when the string starts with
    [CVE-], its split on [-] has 3 segments and the 2nd and the 3rd
    are non-empty and all digits, a digit being a character that
    [str.isdigit] accepts; equivalently, exactly for the strings of
    the form [CVE-<digits>-<digits>] with such digits, and [False] for
    all others, the empty string included.  Every string
    [CVE-<digits>-<digits>] with the digits 0 to 9 is accepted, and
    among the strings of ASCII characters no other is. *)
Theorem is_valid_cve_spec (cve : pystr) :
  (is_valid_cve cve = Ok true \/ is_valid_cve cve = Ok false)
  /\ (is_valid_cve cve = Ok true <->
       startswith cve CVE_prefix = true
       /\ length (split hyphen cve) = 3
       /\ all_digits (nth 1 (split hyphen cve) [])
       /\ all_digits (nth 2 (split hyphen cve) []))
  /\ (is_valid_cve cve = Ok true <-> matches_cve_pattern cve)
  /\ (is_valid_cve cve = Ok false <-> ~ matches_cve_pattern cve)
  /\ is_valid_cve [] = Ok false
  /\ (matches_ascii_cve_pattern cve -> is_valid_cve cve = Ok true)
  /\ (is_ascii cve ->
      is_valid_cve cve = Ok true -> matches_ascii_cve_pattern cve).
Proof using isdigit_ascii.
  split; [apply is_valid_cve_returns|].
  split; [apply is_valid_cve_true|].
  split; [apply is_valid_cve_pattern|].
  split.
  { rewrite <- is_valid_cve_pattern, is_valid_cve_unfold.
    destruct (_ && _); split; intros H; congruence. }
  split; [reflexivity|]. split.
  - intros H. apply is_valid_cve_pattern.
    now apply (ascii_pattern (ascii_pattern_is_ascii H)).
  - intros Ha H. apply (ascii_pattern Ha). now apply is_valid_cve_pattern.
Qed.

(** ** [add_cve] *)

Lemma lstrip_spaces (lead s : pystr) :
  all_space lead -> lstrip (lead ++ s) = lstrip s.
Proof.
  induction 1 as [|c lead Hc _ IH]; [reflexivity|].
  simpl. now rewrite Hc.
Qed.

Lemma lstrip_keep (c : N) (s : pystr) :
  isspace_char c = false -> lstrip (c :: s) = c :: s.
Proof. intros H. simpl. now rewrite H. Qed.

Lemma all_space_rev (s : pystr) : all_space s -> all_space (rev s).
Proof. apply Forall_rev. Qed.

Lemma strip_surrounded (lead trail body : pystr) (first last : N) :
  all_space lead -> all_space trail ->
  isspace_char first = false -> isspace_char last = false ->
  strip (lead ++ (first :: body ++ [last]) ++ trail) = first :: body ++ [last].
Proof.
  intros Hl Ht Hf Hla. unfold strip, rstrip.
  rewrite lstrip_spaces by assumption.
  replace (lstrip ((first :: body ++ [last]) ++ trail))
    with ((first :: body ++ [last]) ++ trail)
    by (symmetry; now apply lstrip_keep).
  rewrite rev_app_distr, lstrip_spaces by now apply all_space_rev.
  replace (rev (first :: body ++ [last])) with (last :: rev (first :: body))
    by (change (first :: body ++ [last]) with ((first :: body) ++ [last]);
        now rewrite rev_app_distr).
  rewrite lstrip_keep by assumption.
  change (last :: rev (first :: body)) with (rev [last] ++ rev (first :: body)).
  rewrite <- rev_app_distr, rev_involutive. reflexivity.
Qed.

(** A valid identifier begins with [C] and ends with a digit. *)
Lemma valid_ends (ident : pystr) :
  is_valid_cve ident = Ok true ->
  exists body last,
    ident = 67%N :: body ++ [last] /\ isdigit_char last = true.
Proof using isdigit_ascii.
  intros H. apply is_valid_cve_pattern in H.
  destruct H as (year & seq & -> & _ & Hne & Hs).
  destruct (exists_last Hne) as (seq' & last & ->).
  exists ([86; 69; 45]%N ++ year ++ hyphen :: seq'), last. split.
  - unfold CVE_prefix. simpl. now rewrite <- !app_assoc.
  - apply Forall_app in Hs. destruct Hs as [_ Hs]. now inversion Hs.
Qed.

(** A string with whitespace at either end is not valid. *)
Lemma padded_invalid (lead trail ident : pystr) :
  all_space lead -> all_space trail -> lead ++ trail <> [] ->
  is_valid_cve (lead ++ ident ++ trail) = Ok false.
Proof using digit_not_space isdigit_ascii isspace_ascii.
  intros Hl Ht Hne.
  destruct (is_valid_cve_returns (lead ++ ident ++ trail)) as [H|H]; [|exact H].
  exfalso. destruct (valid_ends _ H) as (body & last & E & Hd).
  apply digit_not_space in Hd.
  destruct lead as [|c lead].
  - destruct trail as [|c trail]; [now apply Hne|].
    assert (Hin : In last (c :: trail)).
    { destruct (@exists_last _ (c :: trail)) as (t' & l' & Et); [discriminate|].
      simpl in E. rewrite Et, app_assoc in E.
      change (67%N :: body ++ [last]) with ((67%N :: body) ++ [last]) in E.
      apply app_inj_tail in E. destruct E as [_ ->].
      rewrite Et. apply in_or_app. right. now left. }
    unfold all_space in Ht. rewrite Forall_forall in Ht. apply Ht in Hin. congruence.
  - simpl in E. injection E as -> _.
    inversion Hl as [|? ? Hc _]; subst.
    rewrite isspace_ascii in Hc by reflexivity. discriminate.
Qed.

(** What [add_cve] leaves behind, by the verdict on the stripped text. *)
Lemma add_cve_run (en : env) (w : world) (valid : bool) :
  is_valid_cve (strip (cve_input (ui w))) = Ok valid ->
  add_cve en w =
  (Ok tt,
   {| ui := if valid
            then set_cve_input [] (add_item (strip (cve_input (ui w))) (ui w))
            else set_label invalid_cve_text (ui w);
      sent := sent w |}).
Proof.
  intros H. unfold add_cve, bind, read, lift, update. rewrite H.
  destruct valid; reflexivity.
Qed.

(** A valid identifier has no whitespace to strip. *)
Lemma strip_valid (cve : pystr) :
  is_valid_cve cve = Ok true -> strip cve = cve.
Proof using digit_not_space isdigit_ascii isspace_ascii.
  intros H. destruct (valid_ends _ H) as (body & last & -> & Hd).
  rewrite <- (app_nil_r (67%N :: body ++ [last])) at 1.
  apply (@strip_surrounded [] [] body 67%N last); try constructor.
  - now rewrite isspace_ascii by reflexivity.
  - now apply digit_not_space.
Qed.

(** C8 (amended).  [add_cve] never raises.  When the text of the input
    field fails the validation that [add_cve] runs, on the stripped text,
    the list is left as it was and the label shows the fixed message
    (the input field, the selection, the plot and the network are
    untouched); when it passes, it is appended to the list and the
    input field is cleared (the label is left as it was).  A text that
    [is_valid_cve] accepts as typed has nothing to strip, and is the
    string that is appended. *)
Theorem add_cve_frame (en : env) (w : world) (valid : bool) :
  is_valid_cve (strip (cve_input (ui w))) = Ok valid ->
  exists g',
    add_cve en w = (Ok tt, {| ui := g'; sent := sent w |})
    /\ selected g' = selected (ui w) /\ axes g' = axes (ui w)
    /\ (if valid
        then cve_list g' = cve_list (ui w) ++ [strip (cve_input (ui w))]
             /\ cve_input g' = []
             /\ epss_score_label g' = epss_score_label (ui w)
        else cve_list g' = cve_list (ui w)
             /\ cve_input g' = cve_input (ui w)
             /\ epss_score_label g' = invalid_cve_text)
    /\ (is_valid_cve (cve_input (ui w)) = Ok true ->
        valid = true /\ strip (cve_input (ui w)) = cve_input (ui w)).
Proof using digit_not_space isdigit_ascii isspace_ascii.
  intros H. rewrite (add_cve_run en w H).
  eexists; split; [reflexivity|].
  split; [destruct valid; reflexivity|]. split; [destruct valid; reflexivity|].
  split; [destruct valid; simpl; auto|].
  intros Hraw. pose proof (strip_valid _ Hraw) as Hs. split; [|exact Hs].
  rewrite Hs in H. congruence.
Qed.

(** C9. [add_cve] validates the stripped text: when the input field
    holds a valid identifier with whitespace before or after it,
    [add_cve] returns, the list is the old list followed by the
    identifier itself, the field is empty and the selection, the
    label, the plot and the log of requests are as they were, although
    [is_valid_cve] returns [False] on the text as typed. *)
Theorem add_cve_strips (en : env) (w : world) (lead trail ident : pystr) :
  all_space lead -> all_space trail -> lead ++ trail <> [] ->
  is_valid_cve ident = Ok true ->
  cve_input (ui w) = lead ++ ident ++ trail ->
  add_cve en w =
    (Ok tt,
     {| ui := {| cve_input := [];
                 cve_list := cve_list (ui w) ++ [ident];
                 selected := selected (ui w);
                 epss_score_label := epss_score_label (ui w);
                 axes := axes (ui w) |};
        sent := sent w |})
  /\ is_valid_cve (cve_input (ui w)) = Ok false.
Proof using digit_not_space isdigit_ascii isspace_ascii.
  intros Hl Ht Hne Hv E. rewrite E. split.
  - destruct (valid_ends _ Hv) as (body & last & Ei & Hd).
    assert (Hs : strip (cve_input (ui w)) = ident).
    { rewrite E, Ei. apply strip_surrounded; auto.
      now rewrite isspace_ascii by reflexivity. }
    assert (Hv' : is_valid_cve (strip (cve_input (ui w))) = Ok true)
      by now rewrite Hs.
    rewrite (add_cve_run en w Hv'), Hs. reflexivity.
  - now apply padded_invalid.
Qed.

(** ** Frame rules

    A relation between the world before and the world after that every
    step of a computation respects is respected by the computation. *)

Section Frame.

Variable R : world -> world -> Prop.
Hypothesis R_refl : forall w, R w w.
Hypothesis R_trans : forall w1 w2 w3, R w1 w2 -> R w2 w3 -> R w1 w3.

Lemma keeps_ret {A} (a : A) : keeps R (ret a).
Proof using R_refl. intros en w. apply R_refl. Qed.

Lemma keeps_raise {A} (e : exn) : keeps R (@raise A e).
Proof using R_refl. intros en w. apply R_refl. Qed.

Lemma keeps_lift {A} (r : outcome A) : keeps R (lift r).
Proof using R_refl. intros en w. apply R_refl. Qed.

Lemma keeps_read {A} (f : gui -> A) : keeps R (read f).
Proof using R_refl. intros en w. apply R_refl. Qed.

Lemma keeps_get_current_date : keeps R get_current_date.
Proof using R_refl. intros en w. apply R_refl. Qed.

Lemma keeps_bind {A B} (c : M A) (k : A -> M B) :
  keeps R c -> (forall a, keeps R (k a)) -> keeps R (bind c k).
Proof using R_trans.
  intros Hc Hk en w. unfold bind. specialize (Hc en w).
  destruct (c en w) as [[a|e] w']; simpl in *; [|exact Hc].
  eapply R_trans; [exact Hc | apply Hk].
Qed.

Lemma keeps_try_except {A} (c : M A) (catches : exn -> bool) (h : exn -> M A) :
  keeps R c -> (forall e, keeps R (h e)) -> keeps R (try_except c catches h).
Proof using R_trans.
  intros Hc Hh en w. unfold try_except. specialize (Hc en w).
  destruct (c en w) as [[a|e] w']; simpl in *; [exact Hc|].
  destruct (catches e); [|exact Hc].
  eapply R_trans; [exact Hc | apply Hh].
Qed.

End Frame.

(** Walks through a computation with the rules above; [prim] closes
    the primitive steps that are specific to the relation. *)
Ltac frame_steps Hrefl Htrans prim :=
  repeat (intros; first
    [ apply (keeps_ret _ Hrefl) | apply (keeps_raise _ Hrefl)
    | apply (keeps_lift _ Hrefl) | apply (keeps_read _ Hrefl)
    | apply (keeps_get_current_date _ Hrefl)
    | apply (keeps_bind Htrans) | apply (keeps_try_except Htrans)
    | prim
    | match goal with
      | |- keeps _ (if ?b then _ else _) => destruct b
      | |- keeps _ (match ?x with _ => _ end) => destruct x
      end ]).

(** ** The list of identifiers *)

Lemma same_list_refl (w : world) : same_list w w.
Proof. reflexivity. Qed.

Lemma same_list_trans (w1 w2 w3 : world) :
  same_list w1 w2 -> same_list w2 w3 -> same_list w1 w3.
Proof. unfold same_list. congruence. Qed.

Lemma same_list_update (f : gui -> gui) :
  (forall g, cve_list (f g) = cve_list g) -> keeps same_list (update f).
Proof. intros H en w. apply H. Qed.

Lemma same_list_requests_get (u : pystr) params (timeout : Z) :
  keeps same_list (requests_get u params timeout).
Proof.
  intros en w. unfold requests_get.
  destruct (network en _); reflexivity.
Qed.

Ltac same_list_prim :=
  first [ apply same_list_requests_get
        | apply same_list_update; intros ?; reflexivity ].

Ltac frame_list := frame_steps same_list_refl same_list_trans same_list_prim.

Lemma calculate_epss_same_list : keeps same_list calculate_epss.
Proof.
  unfold calculate_epss, fetch_epss_data, show_result, plot_bell_curve,
    raise_for_status, response_json.
  frame_list.
Qed.

Lemma select_row_same_list (i : option nat) (g : gui) :
  cve_list (select_row i g) = cve_list g.
Proof.
  unfold select_row. destruct i as [n|]; [|reflexivity].
  destruct (Nat.ltb n _); reflexivity.
Qed.

(** Only [add_cve] changes the list, and only by appending a string
    that [is_valid_cve] accepts. *)
Lemma handle_list (ev : event) (en : env) (w : world) :
  cve_list (ui (snd (handle ev en w))) = cve_list (ui w)
  \/ (ev = ClickAdd /\
      exists t, is_valid_cve t = Ok true
                /\ cve_list (ui (snd (handle ev en w))) = cve_list (ui w) ++ [t]).
Proof.
  destruct ev; simpl.
  - now left.
  - left. apply select_row_same_list.
  - destruct (is_valid_cve_returns (strip (cve_input (ui w)))) as [H|H];
      rewrite (add_cve_run en w H); simpl.
    + right. split; [reflexivity|]. eexists; split; [exact H | reflexivity].
    + now left.
  - left. apply calculate_epss_same_list.
Qed.

(** C10. In every reachable state of the window each identifier in the
    list satisfies [is_valid_cve]; an event either leaves the list as
    it was, or is a press on the add button and appends one string
    that passed validation. *)
Theorem cve_list_valid (w : world) :
  reachable w ->
  Forall (fun t => is_valid_cve t = Ok true) (cve_list (ui w))
  /\ forall ev en,
       cve_list (ui (snd (handle ev en w))) = cve_list (ui w)
       \/ (ev = ClickAdd /\
           exists t, is_valid_cve t = Ok true
                     /\ cve_list (ui (snd (handle ev en w))) = cve_list (ui w) ++ [t]).
Proof.
  intros Hr. split; [|intros ev en; apply handle_list].
  induction Hr as [|w ev en Hr IH]; [constructor|].
  destruct (handle_list ev en w) as [E|(_ & t & Ht & E)]; rewrite E.
  - exact IH.
  - apply Forall_app. split; [exact IH | now constructor].
Qed.

(** ** [fetch_epss_data] *)

(** What [fetch_epss_data] does, by what the network answers. *)
Lemma fetch_epss_data_run (cve query_date : pystr) (en : env) (w : world) :
  fetch_epss_data cve query_date en w =
  let w' := {| ui := ui w; sent := sent w ++ [epss_request cve query_date] |} in
  let failed msg :=
    (Ok JNull, {| ui := set_label (fetch_error_text msg) (ui w); sent := sent w' |}) in
  match network en (epss_request cve query_date) with
  | Failed msg => failed msg
  | Responded r =>
      if ((400 <=? status_code r) && (status_code r <? 500))%Z then
        failed (str_of_Z (status_code r) ++ codes " Client Error: " ++ reason r
                ++ codes " for url: " ++ url r)
      else if ((500 <=? status_code r) && (status_code r <? 600))%Z then
        failed (str_of_Z (status_code r) ++ codes " Server Error: " ++ reason r
                ++ codes " for url: " ++ url r)
      else match content r with
           | Json j => (Ok j, w')
           | NotJson msg => failed msg
           | Undecoded f => (Raise (fault_exn f), w')
           end
  end.
Proof.
  unfold fetch_epss_data, try_except, bind, requests_get, raise_for_status,
    response_json, epss_request, API_URL.
  cbv zeta.
  destruct (network en _) as [msg|r]; [reflexivity|].
  destruct (_ && _); [reflexivity|].
  destruct (_ && _); [reflexivity|].
  destruct (content r) as [j|msg|[|]]; reflexivity.
Qed.

(** The log after [fetch_epss_data], returning or raising. *)
Lemma fetch_epss_data_sent (cve query_date : pystr) (en : env) (w : world) :
  sent (snd (fetch_epss_data cve query_date en w))
  = sent w ++ [epss_request cve query_date].
Proof.
  rewrite fetch_epss_data_run. cbv zeta.
  destruct (network en _) as [msg|r]; [reflexivity|].
  destruct (_ && _); [reflexivity|].
  destruct (_ && _); [reflexivity|].
  destruct (content r); reflexivity.
Qed.

(** C7. [fetch_epss_data] makes exactly one call of [requests.get],
    a GET of [https://api.first.org/data/v1/epss] with the parameters
    [cve], [date], [envelope = true] and [pretty = true] and a timeout
    of 10 seconds, whatever the network answers and whether the method
    returns or raises: no second call follows a failure. *)
Theorem fetch_epss_data_one_request (cve query_date : pystr) (en : env) (w : world) :
  sent (snd (fetch_epss_data cve query_date en w)) =
  sent w ++
    [ {| req_method := codes "GET";
         req_url := codes "https://api.first.org/data/v1/epss";
         req_params := [(codes "cve", cve); (codes "date", query_date);
                        (codes "envelope", codes "true");
                        (codes "pretty", codes "true")];
         req_timeout := 10 |} ].
Proof. exact (fetch_epss_data_sent cve query_date en w). Qed.

Lemma fetch_epss_data_failure (cve query_date : pystr) (en : env) (w : world) text :
  transport_failure (network en (epss_request cve query_date)) text ->
  fetch_epss_data cve query_date en w =
  (Ok JNull,
   with_label (fetch_error_text text)
     {| ui := ui w; sent := sent w ++ [epss_request cve query_date] |}).
Proof.
  intros H. rewrite fetch_epss_data_run. cbv zeta. unfold transport_failure in H.
  destruct (network en _) as [msg|r]; [now subst|].
  destruct (_ && _); [now subst|].
  destruct (_ && _); [now subst|].
  now rewrite H.
Qed.

Lemma fetch_epss_data_delivers (cve query_date : pystr) (en : env) (w : world) result :
  delivers (network en (epss_request cve query_date)) result ->
  fetch_epss_data cve query_date en w =
  (Ok result, {| ui := ui w; sent := sent w ++ [epss_request cve query_date] |}).
Proof.
  intros (r & Hn & Hs & Hc). rewrite fetch_epss_data_run, Hn. cbv zeta.
  destruct ((400 <=? status_code r)%Z) eqn:E1; simpl in Hs |- *.
  - destruct ((status_code r <? 500)%Z) eqn:E2; simpl.
    + rewrite Z.leb_le in E1. rewrite Z.ltb_lt in E2. rewrite Z.ltb_ge in Hs. lia.
    + assert (E3 : (500 <=? status_code r)%Z = true)
        by (rewrite Z.ltb_ge in E2; now apply Z.leb_le).
      rewrite E3, Hs. simpl. now rewrite Hc.
  - assert (E3 : (500 <=? status_code r)%Z = false)
      by (rewrite Z.leb_gt in *; lia).
    rewrite E3. simpl. now rewrite Hc.
Qed.

Lemma status_passes (r : response) :
  ((400 <=? status_code r) && (status_code r <? 600))%Z = false ->
  ((400 <=? status_code r) && (status_code r <? 500))%Z = false
  /\ ((500 <=? status_code r) && (status_code r <? 600))%Z = false.
Proof.
  intros H. apply andb_false_iff in H.
  split; apply andb_false_iff; rewrite Z.leb_gt, Z.ltb_ge in *; lia.
Qed.

Lemma fetch_epss_data_raises (cve query_date : pystr) (en : env) (w : world) e :
  decoding_fails (network en (epss_request cve query_date)) e ->
  fetch_epss_data cve query_date en w =
  (Raise e, {| ui := ui w; sent := sent w ++ [epss_request cve query_date] |}).
Proof.
  intros (r & f & Hn & Hs & Hc & ->). rewrite fetch_epss_data_run, Hn. cbv zeta.
  destruct (status_passes r Hs) as [-> ->]. now rewrite Hc.
Qed.

(** What [fetch_epss_data] does, in the three cases of the answer. *)
Lemma fetch_epss_data_cases (cve query_date : pystr) (en : env) (w : world) :
  let rq := epss_request cve query_date in
  let w1 := {| ui := ui w; sent := sent w ++ [rq] |} in
  (exists text,
      transport_failure (network en rq) text
      /\ fetch_epss_data cve query_date en w
         = (Ok JNull, with_label (fetch_error_text text) w1))
  \/ (exists result,
        delivers (network en rq) result
        /\ fetch_epss_data cve query_date en w = (Ok result, w1))
  \/ (exists e,
        decoding_fails (network en rq) e
        /\ fetch_epss_data cve query_date en w = (Raise e, w1)).
Proof.
  intros rq w1. rewrite fetch_epss_data_run. cbv zeta. fold rq. fold w1.
  unfold transport_failure, delivers, decoding_fails.
  destruct (network en rq) as [msg|r] eqn:En; [left; now exists msg|].
  destruct ((400 <=? status_code r)%Z && (status_code r <? 500)%Z) eqn:E4;
    [left; eexists; split; reflexivity|].
  destruct ((500 <=? status_code r)%Z && (status_code r <? 600)%Z) eqn:E5;
    [left; eexists; split; reflexivity|].
  assert (Hs : ((400 <=? status_code r) && (status_code r <? 600))%Z = false).
  { apply andb_false_iff. apply andb_false_iff in E4. apply andb_false_iff in E5.
    rewrite Z.leb_gt, Z.ltb_ge in *. lia. }
  destruct (content r) as [j|msg|f] eqn:Ec.
  - right. left. exists j. split; [|reflexivity]. exists r. auto.
  - left. exists msg. split; reflexivity.
  - right. right. exists (fault_exn f). split; [|reflexivity]. exists r, f. auto.
Qed.

Lemma decoding_fails_exn (reply : http_reply) (e : exn) :
  decoding_fails reply e -> e = ValueError \/ e = RecursionError.
Proof. intros (r & [|] & _ & _ & _ & ->); auto. Qed.

(** ** Formatting *)

Lemma decimal_value_snoc (s : pystr) (c : N) :
  decimal_value (s ++ [c]) = (10 * decimal_value s + (c - 48))%N.
Proof. unfold decimal_value. now rewrite fold_left_app. Qed.

Lemma digits_fixed_length (d : nat) (n : N) : length (digits_fixed d n) = d.
Proof.
  revert n; induction d as [|d IH]; intros n; [reflexivity|].
  simpl. rewrite length_app, IH. simpl. lia.
Qed.

Lemma digits_fixed_digits (d : nat) (n : N) : all_ascii_digits (digits_fixed d n).
Proof.
  revert n; induction d as [|d IH]; intros n; [constructor|].
  cbn [digits_fixed]. apply Forall_app. split; [apply IH|].
  constructor; [|constructor]. unfold ascii_isdigit.
  assert (H : (n mod 10 < 10)%N) by now apply N.mod_upper_bound.
  revert H. generalize (n mod 10)%N. intros r H.
  apply andb_true_iff. rewrite !N.leb_le. lia.
Qed.

Lemma digits_fixed_value (d : nat) (n : N) :
  decimal_value (digits_fixed d n) = (n mod 10 ^ N.of_nat d)%N.
Proof.
  revert n; induction d as [|d IH]; intros n.
  - simpl. now rewrite N.mod_1_r.
  - cbn [digits_fixed]. rewrite decimal_value_snoc, IH.
    rewrite Nat2N.inj_succ, N.pow_succ_r'.
    rewrite N.Div0.mod_mul_r.
    generalize (n mod 10)%N, ((n / 10) mod 10 ^ N.of_nat d)%N. intros; lia.
Qed.

Lemma drop_zeros_cons (c c' : N) (r : pystr) :
  drop_zeros (c :: c' :: r) =
  if N.eqb c 48 then drop_zeros (c' :: r) else c :: c' :: r.
Proof. reflexivity. Qed.

Lemma drop_zeros_value (s : pystr) : decimal_value (drop_zeros s) = decimal_value s.
Proof.
  induction s as [|c [|c' r] IH]; try reflexivity.
  rewrite drop_zeros_cons. destruct (N.eqb_spec c 48) as [->|]; [|reflexivity].
  rewrite IH. reflexivity.
Qed.

Lemma drop_zeros_digits (s : pystr) :
  all_ascii_digits s -> all_ascii_digits (drop_zeros s).
Proof.
  induction s as [|c [|c' r] IH]; intros H; try exact H.
  rewrite drop_zeros_cons. destruct (N.eqb c 48); [|exact H].
  apply IH. now inversion H.
Qed.

Lemma drop_zeros_not_nil (s : pystr) : s <> [] -> drop_zeros s <> [].
Proof.
  induction s as [|c [|c' r] IH]; intros H; try exact H.
  rewrite drop_zeros_cons. destruct (N.eqb c 48); [|exact H].
  apply IH. discriminate.
Qed.

Lemma pos_size_bound (p : positive) :
  (Npos p < 2 ^ N.of_nat (Pos.size_nat p))%N.
Proof.
  induction p as [p IH|p IH|]; cbn [Pos.size_nat];
    rewrite ?Nat2N.inj_succ, ?N.pow_succ_r'; lia.
Qed.

Lemma size_bound (n : N) : (n < 10 ^ N.of_nat (S (N.size_nat n)))%N.
Proof.
  rewrite Nat2N.inj_succ, N.pow_succ_r'.
  assert (H : (n < 2 ^ N.of_nat (N.size_nat n))%N).
  { destruct n as [|p]; [reflexivity | apply pos_size_bound]. }
  assert (H2 : (2 ^ N.of_nat (N.size_nat n) <= 10 ^ N.of_nat (N.size_nat n))%N)
    by (apply N.pow_le_mono_l; lia).
  lia.
Qed.

Lemma str_of_N_value (n : N) : decimal_value (str_of_N n) = n.
Proof.
  unfold str_of_N. rewrite drop_zeros_value, digits_fixed_value.
  apply N.mod_small, size_bound.
Qed.

Lemma str_of_N_digits (n : N) : all_ascii_digits (str_of_N n) /\ str_of_N n <> [].
Proof.
  unfold str_of_N. split.
  - apply drop_zeros_digits, digits_fixed_digits.
  - apply drop_zeros_not_nil. intros H. apply (f_equal (@length _)) in H.
    rewrite digits_fixed_length in H. discriminate.
Qed.

(** [scaled_round d m e] is an integer nearest to [m * 2^e * 10^d]. *)
Lemma scaled_round_nearest (d : nat) (m : positive) (e : Z) :
  let n := scaled_round d m e in
  (0 <= n
   /\ 2 * Z.abs (n * 2 ^ Z.max 0 (- e) - Zpos m * 10 ^ Z.of_nat d * 2 ^ Z.max 0 e)
      <= 2 ^ Z.max 0 (- e))%Z.
Proof.
  unfold scaled_round. set (num := (Zpos m * 10 ^ Z.of_nat d)%Z).
  assert (Hnum : (0 < num)%Z).
  { unfold num. apply Z.mul_pos_pos; [lia | apply Z.pow_pos_nonneg; lia]. }
  destruct e as [|k|k]; cbv zeta.
  - change (Z.max 0 (- 0)) with 0%Z. change (Z.max 0 0) with 0%Z.
    rewrite !Z.pow_0_r. split; [lia | rewrite Z.mul_1_r, Z.sub_diag; simpl; lia].
  - rewrite Z.max_l by lia. rewrite Z.max_r by lia. rewrite Z.pow_0_r.
    assert (0 < 2 ^ Z.pos k)%Z by (apply Z.pow_pos_nonneg; lia).
    split; [nia | rewrite Z.mul_1_r, Z.sub_diag; simpl; lia].
  - rewrite Z.max_r by lia. rewrite Z.max_l by lia. rewrite Z.pow_0_r, Z.mul_1_r.
    change (- Z.neg k)%Z with (Z.pos k).
    rewrite Pos2Z.inj_pow. set (den := (2 ^ Z.pos k)%Z).
    assert (Hden : (0 < den)%Z) by (apply Z.pow_pos_nonneg; lia).
    pose proof (Z.div_mod num den ltac:(lia)) as Hdm.
    pose proof (Z.mod_pos_bound num den Hden) as Hr.
    assert (Hq : (0 <= num / den)%Z) by (apply Z.div_pos; lia).
    revert Hdm Hr Hq. generalize (num / den)%Z, (num mod den)%Z.
    intros q r Hdm Hr Hq.
    destruct (Z.compare_spec (2 * r) den) as [Hc|Hc|Hc].
    + destruct (Z.even q); split; lia.
    + split; lia.
    + split; lia.
Qed.

Lemma digits_fixed_zero (d : nat) : digits_fixed d 0 = repeat 48%N d.
Proof.
  induction d as [|d IH]; [reflexivity|].
  cbn [digits_fixed]. change (0 / 10)%N with 0%N. rewrite IH.
  change (48 + 0 mod 10)%N with 48%N.
  change (repeat 48%N d ++ [48%N]) with (repeat 48%N d ++ repeat 48%N 1).
  rewrite <- repeat_app. now rewrite Nat.add_1_r.
Qed.

Lemma format_f_fixed_repr (d : nat) (x : float) :
  d <> 0 -> fixed_repr d x (format_f d x).
Proof.
  intros Hd. destruct x as [s|s| |s m e]; try reflexivity.
  - destruct d as [|d]; [contradiction|].
    unfold format_f, fixed_digits, fixed_repr. cbn [Z.to_N].
    rewrite N.Div0.div_0_l, N.Div0.mod_0_l, digits_fixed_zero. reflexivity.
  - destruct d as [|d]; [contradiction|].
    unfold format_f, fixed_digits, fixed_repr.
    destruct (scaled_round_nearest (S d) m e) as [Hn Hnear].
    set (n := scaled_round (S d) m e) in *. cbv zeta in Hnear.
    set (unit := (10 ^ N.of_nat (S d))%N).
    exists (str_of_N (Z.to_N n / unit)), (digits_fixed (S d) (Z.to_N n mod unit)).
    destruct (str_of_N_digits (Z.to_N n / unit)) as [Hw Hne].
    repeat split; auto using digits_fixed_digits, digits_fixed_length.
    cbv zeta. rewrite str_of_N_value, digits_fixed_value.
    fold unit. rewrite N.Div0.mod_mod.
    replace (Z.to_N n / unit * unit + Z.to_N n mod unit)%N with (Z.to_N n)
      by (rewrite (N.Div0.div_mod (Z.to_N n) unit) at 1; lia).
    rewrite Z2N.id by exact Hn. exact Hnear.
Qed.

(** ** [calculate_epss] *)

(** What [show_result] does, by the outcomes of the test of [result]
    and of the two conversions. *)
Lemma show_result_run (result : json) (en : env) (w : world) :
  show_result result en w =
  match no_data result with
  | Raise e => (Raise e, w)
  | Ok true => (Ok tt, with_label no_data_text w)
  | Ok false =>
      let failed e :=
        if is_parse_error e then (Ok tt, with_label processing_error_text w)
        else (Raise e, w) in
      match read_field result (codes "epss") with
      | Raise e => failed e
      | Ok epss_score =>
          match read_field result (codes "percentile") with
          | Raise e => failed e
          | Ok p => (Ok tt, with_score epss_score (fmul p (float_of_Z 100)) w)
          end
      end
  end.
Proof.
  unfold show_result, bind, lift, try_except, update, plot_bell_curve.
  destruct (no_data result) as [[|]|e]; try reflexivity.
  destruct (read_field result (codes "epss")) as [s|e]; [|reflexivity].
  destruct (read_field result (codes "percentile")) as [q|e]; reflexivity.
Qed.

Lemma calculate_epss_run (en : env) (w : world) :
  calculate_epss en w =
  match selectedItems (ui w) with
  | [] => (Ok tt, with_label select_cve_text w)
  | cve_id :: _ =>
      match fetch_epss_data cve_id (today en) en w with
      | (Ok result, w') => show_result result en w'
      | (Raise e, w') => (Raise e, w')
      end
  end.
Proof.
  unfold calculate_epss, bind, read, get_current_date, update.
  destruct (selectedItems (ui w)); reflexivity.
Qed.

(** Without a selected row nothing is fetched. *)
Lemma calculate_epss_no_selection (en : env) (w : world) :
  selectedItems (ui w) = [] ->
  calculate_epss en w = (Ok tt, with_label select_cve_text w).
Proof. intros H. now rewrite calculate_epss_run, H. Qed.

Lemma calculate_epss_delivered (en : env) (w : world) (cve_id : pystr)
    (rest : list pystr) (result : json) :
  selectedItems (ui w) = cve_id :: rest ->
  delivers (network en (epss_request cve_id (today en))) result ->
  calculate_epss en w =
  show_result result en
    {| ui := ui w; sent := sent w ++ [epss_request cve_id (today en)] |}.
Proof.
  intros Hsel Hd. rewrite calculate_epss_run, Hsel.
  now rewrite (@fetch_epss_data_delivers cve_id (today en) en w result Hd).
Qed.

Lemma same_sent_refl (w : world) : same_sent w w.
Proof. reflexivity. Qed.

Lemma same_sent_trans (w1 w2 w3 : world) :
  same_sent w1 w2 -> same_sent w2 w3 -> same_sent w1 w3.
Proof. unfold same_sent. congruence. Qed.

Lemma same_sent_update (f : gui -> gui) : keeps same_sent (update f).
Proof. intros en w. reflexivity. Qed.

(** [show_result] and [add_cve] stay off the network. *)
Lemma show_result_same_sent (result : json) : keeps same_sent (show_result result).
Proof.
  unfold show_result, plot_bell_curve.
  frame_steps same_sent_refl same_sent_trans ltac:(apply same_sent_update).
Qed.

Lemma add_cve_same_sent : keeps same_sent add_cve.
Proof.
  unfold add_cve.
  frame_steps same_sent_refl same_sent_trans ltac:(apply same_sent_update).
Qed.

(** A click on [Calculate] with a row selected sends one request,
    also when the handler raises. *)
Lemma calculate_epss_one_request (en : env) (w : world) (cve_id : pystr)
    (rest : list pystr) :
  selectedItems (ui w) = cve_id :: rest ->
  sent (snd (calculate_epss en w)) = sent w ++ [epss_request cve_id (today en)].
Proof.
  intros Hsel. rewrite calculate_epss_run, Hsel.
  pose proof (fetch_epss_data_sent cve_id (today en) en w) as Hs.
  destruct (fetch_epss_data cve_id (today en) en w) as [[result|e] w'];
    cbn [snd] in Hs; [|exact Hs].
  rewrite <- Hs. apply show_result_same_sent.
Qed.

Lemma first_record_no_data (result : json) fields :
  first_record result = Some fields -> no_data result = Ok false.
Proof.
  unfold first_record, no_data. destruct result as [| | | | | |kv]; try discriminate.
  destruct (assoc (codes "data") kv) as [[| | | | |[|[| | | | | |f] l]|]|] eqn:E;
    try discriminate.
  intros _. destruct kv as [|p kv]; [discriminate|].
  unfold contains, getitem, rbind. rewrite E. reflexivity.
Qed.

Lemma first_record_read_field (result : json) fields (field : pystr) :
  first_record result = Some fields ->
  read_field result field =
  match assoc field fields with
  | Some v => py_float v
  | None => Raise KeyError
  end.
Proof.
  unfold first_record, read_field. destruct result as [| | | | | |kv]; try discriminate.
  destruct (assoc (codes "data") kv) as [[| | | | |[|[| | | | | |f] l]|]|] eqn:E;
    try discriminate.
  intros H. injection H as <-. unfold getitem at 1. rewrite E. simpl.
  destruct (assoc field f); reflexivity.
Qed.

Lemma field_reads_read_field (result : json) fields field x :
  first_record result = Some fields -> field_reads fields field x ->
  read_field result field = Ok x.
Proof.
  intros Hr (v & Hv & Hx). now rewrite (first_record_read_field _ _ Hr), Hv.
Qed.



(** An exception that the handler of [show_result] does not name
    leaves the method as it is, and nothing is written on the label. *)
Lemma show_result_uncaught (result : json) (e : exn) (en : env) (w : world) :
  no_data result = Ok false ->
  read_field result (codes "epss") = Raise e ->
  is_parse_error e = false ->
  show_result result en w = (Raise e, w).
Proof.
  intros Hn Hr He. rewrite show_result_run, Hn, Hr. cbv beta zeta. now rewrite He.
Qed.

(** C5. When both conversions succeed, [show_result] returns, and the
    label reads [EPSS Score: ] followed by the score with 4 decimals
    and [Percentile: ] followed by the percentile times 100 with 2
    decimals, each text being the digits of an integer nearest to the
    value scaled by [10^4] (by [10^2]); the score 0.1234 and the
    percentile 0.5 give the texts [0.1234] and [50.00]. *)
Theorem show_result_success (result : json) (score percentile : float)
    (en : env) (w : world) :
  is_success result score percentile ->
  let shown := fmul percentile (float_of_Z 100) in
  show_result result en w = (Ok tt, with_score score shown w)
  /\ epss_score_label (ui (with_score score shown w)) =
       codes "EPSS Score: " ++ format_f 4 score
       ++ codes "    Percentile: " ++ format_f 2 shown
  /\ fixed_repr 4 score (format_f 4 score)
  /\ fixed_repr 2 shown (format_f 2 shown)
  /\ format_f 4 (float_of_decimal 1234 (-4)) = codes "0.1234"
  /\ format_f 2 (fmul (float_of_decimal 5 (-1)) (float_of_Z 100)) = codes "50.00".
Proof.
  intros (Hn & Hs & Hp) shown. rewrite show_result_run, Hn, Hs, Hp.
  repeat split; try apply format_f_fixed_repr; try discriminate;
    vm_compute; reflexivity.
Qed.

(** C2. A failure of the transport layer does not end with its text on
    the label: [fetch_epss_data] writes [Error fetching data: ...] and
    returns [None], and [calculate_epss] then replaces the label by the
    no-data message, the same one an absent or empty [data] gives. *)
Theorem transport_error_overwritten (en : env) (w : world)
    (cve_id : pystr) (rest : list pystr) (text : pystr) :
  selectedItems (ui w) = cve_id :: rest ->
  transport_failure (network en (epss_request cve_id (today en))) text ->
  exists w',
    calculate_epss en w = (Ok tt, w')
    /\ epss_score_label (ui w') = no_data_text
    /\ epss_score_label (ui w') <> fetch_error_text text.
Proof.
  intros Hsel Hfail. rewrite calculate_epss_run, Hsel.
  rewrite (@fetch_epss_data_failure cve_id (today en) en w text Hfail), show_result_run.
  eexists; split; [reflexivity|]. split; [reflexivity|].
  simpl. unfold no_data_text, fetch_error_text. simpl. discriminate.
Qed.


(** C6. A failure of the conversion that is not a [KeyError], a
    [ValueError] or an [IndexError] leaves [calculate_epss] as an
    exception: for the body
    [{"data": [{"epss": null, "percentile": "0.9"}]}], [float(None)]
    raises [TypeError], the method raises it in turn, and the label
    keeps the text it had. *)
Theorem calculate_epss_null_score_raises :
  calculate_epss (env_of (reply_of 200 "OK" null_score_body)) selected_world =
  (Raise TypeError,
   {| ui := ui selected_world;
      sent := [epss_request (codes "CVE-2023-1234") (codes "2024-05-17")] |}).
Proof.
  rewrite calculate_epss_run.
  change (selectedItems (ui selected_world)) with [codes "CVE-2023-1234"].
  cbv beta iota.
  rewrite (@fetch_epss_data_delivers _ _ _ _ null_score_body)
    by (eexists; repeat split; reflexivity).
  now rewrite (@show_result_uncaught null_score_body TypeError).
Qed.

(** ** [plot_bell_curve] *)











(** * Further properties *)

(** ** [add_cve] at its edges *)

Lemma lstrip_all_space (s : pystr) : all_space s -> lstrip s = [].
Proof.
  intros H. rewrite <- (app_nil_r s). now rewrite lstrip_spaces.
Qed.

Lemma strip_all_space (s : pystr) : all_space s -> strip s = [].
Proof.
  intros H. unfold strip. now rewrite lstrip_all_space.
Qed.

(** X1. An input field that is empty or holds only whitespace is
    rejected: [add_cve] writes the fixed message and leaves everything
    else, the whitespace in the field included, as it was. *)
Theorem add_cve_blank (en : env) (w : world) :
  all_space (cve_input (ui w)) ->
  add_cve en w = (Ok tt, with_label invalid_cve_text w).
Proof.
  intros H.
  assert (Hv : is_valid_cve (strip (cve_input (ui w))) = Ok false)
    by now rewrite strip_all_space.
  now rewrite (add_cve_run en w Hv).
Qed.

(** X2. A second press on [Add] right after an accepted one is
    rejected: the first press cleared the field, so the second one
    validates the empty string.  The identifier is in the list once,
    and the label shows the invalid-format message. *)
Theorem add_cve_twice (en en' : env) (w : world) :
  is_valid_cve (strip (cve_input (ui w))) = Ok true ->
  add_cve en' (snd (add_cve en w)) =
  (Ok tt,
   {| ui := set_label invalid_cve_text
              (set_cve_input [] (add_item (strip (cve_input (ui w))) (ui w)));
      sent := sent w |}).
Proof.
  intros H. rewrite (add_cve_run en w H). cbn [snd].
  set (w1 := {| ui := set_cve_input [] (add_item (strip (cve_input (ui w))) (ui w));
                sent := sent w |}).
  assert (H1 : is_valid_cve (strip (cve_input (ui w1))) = Ok false) by reflexivity.
  now rewrite (add_cve_run en' w1 H1).
Qed.

Lemma count_occ_absent (c : N) (s : pystr) :
  ~ In c s -> count_occ N.eq_dec s c = 0.
Proof. apply count_occ_not_In. Qed.

(** X3. A string that [is_valid_cve] accepts has exactly two hyphens
    and at least seven characters. *)
Theorem valid_two_hyphens (cve : pystr) :
  is_valid_cve cve = Ok true ->
  count_occ N.eq_dec cve hyphen = 2 /\ 7 <= length cve.
Proof using isdigit_ascii.
  intros H. apply is_valid_cve_pattern in H.
  destruct H as (y & q & -> & Hy & Hq).
  pose proof (digits_no_hyphen Hy) as Ny. pose proof (digits_no_hyphen Hq) as Nq.
  destruct Hy as [Hy _]. destruct Hq as [Hq _]. split.
  - rewrite !count_occ_app, count_occ_cons_eq by reflexivity.
    rewrite (@count_occ_absent hyphen y Ny), (@count_occ_absent hyphen q Nq).
    reflexivity.
  - rewrite !length_app. cbn [length CVE_prefix].
    destruct y; [contradiction|]. destruct q; [contradiction|]. simpl. lia.
Qed.

(** ** [calculate_epss]: what it leaves alone *)

Lemma same_inputs_refl (w : world) : same_inputs w w.
Proof. repeat split. Qed.

Lemma same_inputs_trans (w1 w2 w3 : world) :
  same_inputs w1 w2 -> same_inputs w2 w3 -> same_inputs w1 w3.
Proof.
  intros (A1 & A2 & A3) (B1 & B2 & B3). repeat split; congruence.
Qed.

Lemma same_inputs_set_label (t : pystr) : keeps same_inputs (update (set_label t)).
Proof. intros en w. repeat split. Qed.

Lemma same_inputs_set_axes (p : plot) : keeps same_inputs (update (set_axes p)).
Proof. intros en w. repeat split. Qed.

Lemma same_inputs_requests_get (u : pystr) params (timeout : Z) :
  keeps same_inputs (requests_get u params timeout).
Proof.
  intros en w. unfold requests_get.
  destruct (network en _); repeat split.
Qed.

Ltac same_inputs_prim :=
  first [ apply same_inputs_requests_get
        | apply same_inputs_set_label
        | apply same_inputs_set_axes ].

Lemma keeps_inputs_calculate_epss : keeps same_inputs calculate_epss.
Proof.
  unfold calculate_epss, fetch_epss_data, show_result, plot_bell_curve,
    raise_for_status, response_json.
  frame_steps same_inputs_refl same_inputs_trans same_inputs_prim.
Qed.

(** X4. [calculate_epss] reads the list, the input field and the
    selection and never writes them, whatever the network answers and
    also when it raises. *)
Theorem calculate_epss_keeps_inputs (en : env) (w : world) :
  cve_list (ui (snd (calculate_epss en w))) = cve_list (ui w)
  /\ cve_input (ui (snd (calculate_epss en w))) = cve_input (ui w)
  /\ selected (ui (snd (calculate_epss en w))) = selected (ui w).
Proof. exact (keeps_inputs_calculate_epss en w). Qed.

Lemma calculate_epss_sent (en : env) (w : world) :
  sent (snd (calculate_epss en w)) =
  sent w ++ match selectedItems (ui w) with
            | [] => []
            | cve_id :: _ => [epss_request cve_id (today en)]
            end.
Proof.
  destruct (selectedItems (ui w)) as [|cve_id rest] eqn:E.
  - rewrite (calculate_epss_no_selection en w E). simpl. now rewrite app_nil_r.
  - apply (calculate_epss_one_request en w E).
Qed.

(** X5. A press on [Calculate] sends one request, for the selected
    identifier and the current date, when a row is selected, and none
    when no row is; no outcome, an exception included, adds another. *)
Theorem calculate_epss_requests (en : env) (w : world) :
  sent (snd (calculate_epss en w)) =
  sent w ++ match selectedItems (ui w) with
            | [] => []
            | cve_id :: _ => [epss_request cve_id (today en)]
            end.
Proof. exact (calculate_epss_sent en w). Qed.

(** ** [calculate_epss]: the exceptions that leave it *)

Lemma contains_raises (v : json) (k : pystr) (e : exn) :
  contains v k = Raise e -> e = TypeError.
Proof. destruct v; simpl; congruence. Qed.

Lemma no_data_raises (result : json) (e : exn) :
  no_data result = Raise e -> e = TypeError.
Proof.
  unfold no_data. destruct (negb (truthy result)); [discriminate|].
  destruct (contains result (codes "data")) as [has|e'] eqn:Ec; simpl.
  - destruct has; simpl; [|discriminate].
    destruct result; simpl in *; try congruence.
    destruct (assoc (codes "data") kv); [discriminate|].
    injection Ec as Ec. discriminate.
  - intros H. injection H as <-. now apply contains_raises in Ec.
Qed.

Lemma getitem_raises (v : json) (k : key) (e : exn) :
  getitem v k = Raise e -> may_escape e.
Proof.
  unfold may_escape. destruct v, k; simpl; try (intros H; injection H as <-; auto).
  - unfold list_getitem. destruct (nth_error s i); simpl; [discriminate|].
    intros H; injection H as <-; auto.
  - unfold list_getitem. destruct (nth_error l i); [discriminate|].
    intros H; injection H as <-; auto.
  - destruct (assoc s kv); [discriminate|]. intros H; injection H as <-; auto.
Qed.

Lemma py_float_raises (v : json) (e : exn) :
  py_float v = Raise e -> may_escape e.
Proof.
  unfold may_escape. destruct v; simpl; try (intros H; injection H as <-; auto).
  - discriminate.
  - destruct (float_of_Z z); try discriminate. intros H; injection H as <-; auto.
  - discriminate.
  - destruct (float_of_str s); [discriminate|]. intros H; injection H as <-; auto.
Qed.

Lemma read_field_raises (result : json) (field : pystr) (e : exn) :
  read_field result field = Raise e -> may_escape e.
Proof.
  unfold read_field, rbind.
  destruct (getitem result (KStr (codes "data"))) as [d|e1] eqn:E1;
    [|intros H; injection H as <-; now apply getitem_raises in E1].
  destruct (getitem d (KInt 0)) as [d0|e2] eqn:E2;
    [|intros H; injection H as <-; now apply getitem_raises in E2].
  destruct (getitem d0 (KStr field)) as [v|e3] eqn:E3;
    [|intros H; injection H as <-; now apply getitem_raises in E3].
  apply py_float_raises.
Qed.

Lemma show_result_raises (result : json) (en : env) (w w' : world) (e : exn) :
  show_result result en w = (Raise e, w') ->
  (e = TypeError \/ e = OverflowError) /\ w' = w /\ result <> JNull.
Proof.
  rewrite show_result_run. intros H.
  assert (Hnn : result <> JNull) by (intros ->; simpl in H; discriminate).
  destruct (no_data result) as [[|]|e0] eqn:En.
  - discriminate.
  - cbv zeta beta in H.
    assert (Hf : forall e1, may_escape e1 ->
              (if is_parse_error e1
               then (Ok tt, with_label processing_error_text w)
               else (Raise e1, w)) = (Raise e, w') ->
              (e = TypeError \/ e = OverflowError) /\ w' = w).
    { intros e1 [Hp|He1] Hif.
      - rewrite Hp in Hif. discriminate.
      - assert (Hnp : is_parse_error e1 = false) by (destruct He1; subst; reflexivity).
        rewrite Hnp in Hif. injection Hif as <- <-. auto. }
    destruct (read_field result (codes "epss")) as [s1|e1] eqn:E1.
    + destruct (read_field result (codes "percentile")) as [s2|e2] eqn:E2;
        [discriminate|].
      apply read_field_raises in E2. destruct (Hf e2 E2 H). auto.
    + apply read_field_raises in E1. destruct (Hf e1 E1 H). auto.
  - injection H as <- <-. apply no_data_raises in En. auto.
Qed.

(** X6. An exception leaves [calculate_epss] in two ways only.
    Either the decoder raised it inside [response.json()], a
    [ValueError] or a [RecursionError] that is not a
    [RequestException] and so passes the handler of [fetch_epss_data];
    or a body was delivered and the test or the conversion of it
    raised a [TypeError] or an [OverflowError], which the handler of
    [calculate_epss] does not name.  In both a row was selected, and
    the window is as it was before the press: no message was written
    and nothing was drawn; only the request was sent. *)
Theorem calculate_epss_raises (en : env) (w w' : world) (e : exn) :
  calculate_epss en w = (Raise e, w') ->
  exists cve_id rest,
    selectedItems (ui w) = cve_id :: rest
    /\ w' = {| ui := ui w; sent := sent w ++ [epss_request cve_id (today en)] |}
    /\ ((e = ValueError \/ e = RecursionError)
        /\ decoding_fails (network en (epss_request cve_id (today en))) e
        \/ (e = TypeError \/ e = OverflowError)
           /\ exists result,
                delivers (network en (epss_request cve_id (today en))) result).
Proof.
  rewrite calculate_epss_run.
  destruct (selectedItems (ui w)) as [|cve_id rest]; [discriminate|].
  intros H. exists cve_id, rest. split; [reflexivity|].
  destruct (fetch_epss_data_cases cve_id (today en) en w)
    as [(text & _ & E)|[(result & Hd & E)|(e' & Hf & E)]]; rewrite E in H.
  - apply show_result_raises in H. now destruct H as (_ & _ & H).
  - apply show_result_raises in H. destruct H as (He & -> & _).
    split; [reflexivity|]. right. split; [exact He|]. now exists result.
  - injection H as <- <-. split; [reflexivity|]. left.
    split; [now apply decoding_fails_exn in Hf | exact Hf].
Qed.

(** ** [calculate_epss]: when the scores are shown *)

Lemma read_field_ok (result : json) (field : pystr) (x : float) :
  read_field result field = Ok x ->
  exists fields, first_record result = Some fields /\ field_reads fields field x.
Proof.
  unfold read_field, first_record, field_reads.
  destruct result as [| | | | | |kv]; try discriminate.
  unfold getitem at 1. destruct (assoc (codes "data") kv) as [d|]; [|discriminate].
  cbn [rbind].
  destruct d as [| | | |s|l|kv']; try discriminate.
  - simpl. unfold list_getitem. destruct s; discriminate.
  - destruct l as [|d0 l]; [discriminate|]. cbn [getitem list_getitem nth_error rbind].
    destruct d0 as [| | | | | |f]; try discriminate.
    cbn [getitem]. destruct (assoc field f) as [v|] eqn:Ea; [|discriminate].
    cbn [rbind]. intros H. exists f. split; [reflexivity|]. now exists v.
Qed.

(** X7. Both conversions succeed exactly for the bodies of the
    expected shape: a dict whose [data] is a list that begins with a
    dict holding an [epss] and a [percentile] that [float] converts.
    No other body, however close, is displayed as scores. *)
Theorem is_success_shape (result : json) (score percentile : float) :
  is_success result score percentile <->
  exists fields,
    first_record result = Some fields
    /\ field_reads fields (codes "epss") score
    /\ field_reads fields (codes "percentile") percentile.
Proof.
  split.
  - intros (_ & Hs & Hp).
    destruct (read_field_ok _ _ Hs) as (f & Hf & Hfs).
    destruct (read_field_ok _ _ Hp) as (f' & Hf' & Hfp).
    assert (f' = f) by congruence. subst f'. now exists f.
  - intros (f & Hf & Hs & Hp). repeat split.
    + now apply first_record_no_data with f.
    + now apply field_reads_read_field with f.
    + now apply field_reads_read_field with f.
Qed.

Lemma show_result_axes (result : json) (en : env) (w : world) :
  axes (ui (snd (show_result result en w))) = axes (ui w)
  \/ exists score percentile,
       is_success result score percentile
       /\ show_result result en w
          = (Ok tt, with_score score (fmul percentile (float_of_Z 100)) w).
Proof.
  rewrite show_result_run.
  destruct (no_data result) as [[|]|e] eqn:En; try (left; reflexivity).
  cbv zeta beta.
  destruct (read_field result (codes "epss")) as [s1|e1] eqn:E1;
    [|left; destruct (is_parse_error e1); reflexivity].
  destruct (read_field result (codes "percentile")) as [s2|e2] eqn:E2;
    [|left; destruct (is_parse_error e2); reflexivity].
  right. exists s1, s2. now repeat split.
Qed.

(** X8. The plot is redrawn only together with the scores: after a
    press on [Calculate] either the axes hold what they held before
    (an earlier curve and marker stay on display beside any message),
    or a body was delivered on which both conversions succeeded, the
    label shows its scores and the marker stands at its score. *)
Theorem calculate_epss_axes (en : env) (w : world) :
  axes (ui (snd (calculate_epss en w))) = axes (ui w)
  \/ exists cve_id rest result score percentile,
       selectedItems (ui w) = cve_id :: rest
       /\ delivers (network en (epss_request cve_id (today en))) result
       /\ is_success result score percentile
       /\ fst (calculate_epss en w) = Ok tt
       /\ axes (ui (snd (calculate_epss en w))) = Some (bell_curve score)
       /\ epss_score_label (ui (snd (calculate_epss en w)))
          = score_text score (fmul percentile (float_of_Z 100)).
Proof.
  rewrite calculate_epss_run.
  destruct (selectedItems (ui w)) as [|cve_id rest] eqn:Es; [left; reflexivity|].
  destruct (fetch_epss_data_cases cve_id (today en) en w)
    as [(text & _ & ->)|[(result & Hd & ->)|(e & _ & ->)]]; [| |left; reflexivity].
  - left. rewrite show_result_run. reflexivity.
  - destruct (show_result_axes result en
                {| ui := ui w; sent := sent w ++ [epss_request cve_id (today en)] |})
      as [H|(s1 & s2 & Hs & ->)]; [left; exact H|].
    right. exists cve_id, rest, result, s1, s2.
    split; [reflexivity|]. split; [exact Hd|]. split; [exact Hs|].
    repeat split.
Qed.

(** ** The requests of a session *)

Lemma selectedItems_In (g : gui) (cve_id : pystr) (rest : list pystr) :
  selectedItems g = cve_id :: rest -> In cve_id (cve_list g).
Proof.
  unfold selectedItems. destruct (selected g) as [i|]; [|discriminate].
  destruct (nth_error (cve_list g) i) as [t|] eqn:E; [|discriminate].
  intros H. injection H as <- _. now apply nth_error_In with i.
Qed.

(** Only [calculate_epss] sends, and only for an identifier of the list. *)
Lemma handle_sent (ev : event) (en : env) (w : world) :
  sent (snd (handle ev en w)) = sent w
  \/ (ev = ClickCalculate /\
      exists cve_id,
        In cve_id (cve_list (ui w))
        /\ sent (snd (handle ev en w)) = sent w ++ [epss_request cve_id (today en)]).
Proof.
  destruct ev; cbn [handle].
  - now left.
  - now left.
  - left. apply add_cve_same_sent.
  - rewrite calculate_epss_sent.
    destruct (selectedItems (ui w)) as [|cve_id rest] eqn:E.
    + left. apply app_nil_r.
    + right. split; [reflexivity|]. exists cve_id. split; [|reflexivity].
      now apply selectedItems_In with rest.
Qed.

Lemma reachable_list_valid (w : world) :
  reachable w -> Forall (fun t => is_valid_cve t = Ok true) (cve_list (ui w)).
Proof.
  induction 1 as [|w ev en Hr IH]; [constructor|].
  destruct (handle_list ev en w) as [E|(_ & t & Ht & E)]; rewrite E.
  - exact IH.
  - apply Forall_app. split; [exact IH | now constructor].
Qed.

(** X9. Every request the window has sent, in any reachable state, is
    a GET of the fixed URL with timeout 10 whose [cve] parameter is an
    identifier that [is_valid_cve] accepts: what fails validation
    never reaches the network. *)
Theorem requests_valid (w : world) :
  reachable w -> Forall valid_request (sent w).
Proof.
  induction 1 as [|w ev en Hr IH]; [constructor|].
  destruct (handle_sent ev en w) as [E|(_ & cve_id & Hin & E)]; rewrite E.
  - exact IH.
  - apply Forall_app. split; [exact IH|]. constructor; [|constructor].
    exists cve_id, (today en). split; [reflexivity|].
    pose proof (reachable_list_valid Hr) as Hv. rewrite Forall_forall in Hv.
    now apply Hv.
Qed.

(** X10. In a session the log of requests only grows, and by at most
    one request for each press on [Calculate]: editing, selecting and
    adding never send, and nothing is retried or sent in the
    background. *)
Theorem play_requests (evs : list (event * env)) (w : world) :
  exists more,
    sent (play evs w) = sent w ++ more
    /\ length more <= calculate_clicks evs.
Proof.
  revert w. induction evs as [|[ev en] evs IH]; intros w.
  - exists []. split; [now rewrite app_nil_r | apply Nat.le_0_l].
  - cbn [play]. destruct (IH (snd (handle ev en w))) as (more & -> & Hl).
    unfold calculate_clicks in *. cbn [filter fst].
    destruct (handle_sent ev en w) as [E|(-> & cve_id & _ & E)]; rewrite E.
    + exists more. split; [reflexivity|].
      destruct (is_calculate ev); cbn [length]; lia.
    + exists (epss_request cve_id (today en) :: more).
      split; [now rewrite <- app_assoc|]. cbn [is_calculate length]. lia.
Qed.

Lemma select_row_in_range (n : nat) (g : gui) :
  n < length (cve_list g) -> select_row (Some n) g = set_selected (Some n) g.
Proof.
  intros H. unfold select_row. apply Nat.ltb_lt in H. now rewrite H.
Qed.

(** X11. Typing an identifier, adding it, selecting the new row and
    pressing [Calculate] queries the stripped identifier on the current
    date: the list ends with it and the last request carries it. *)
Theorem add_select_calculate (en1 en2 en3 en : env) (w : world) (t : pystr) :
  is_valid_cve (strip t) = Ok true ->
  let w' := play [(EditInput t, en1); (ClickAdd, en2);
                  (SelectRow (Some (length (cve_list (ui w)))), en3);
                  (ClickCalculate, en)] w in
  cve_list (ui w') = cve_list (ui w) ++ [strip t]
  /\ sent w' = sent w ++ [epss_request (strip t) (today en)].
Proof.
  intros Hv w'. subst w'. cbn [play handle].
  set (w1 := snd (update (set_cve_input t) en1 w)).
  assert (Hv1 : is_valid_cve (strip (cve_input (ui w1))) = Ok true) by exact Hv.
  rewrite (add_cve_run en2 w1 Hv1). cbn [snd].
  set (g2 := set_cve_input [] (add_item (strip (cve_input (ui w1))) (ui w1))).
  assert (Hl2 : cve_list g2 = cve_list (ui w) ++ [strip t]) by reflexivity.
  set (w3 := {| ui := set_selected (Some (length (cve_list (ui w)))) g2;
                sent := sent w1 |}).
  assert (E3 : snd (update (select_row (Some (length (cve_list (ui w))))) en3
                      {| ui := g2; sent := sent w1 |}) = w3).
  { unfold update. cbn [snd ui sent].
    rewrite select_row_in_range by (rewrite Hl2, length_app; simpl; lia).
    reflexivity. }
  rewrite E3.
  assert (Hsel : selectedItems (ui w3) = [strip t]).
  { unfold selectedItems. cbn [w3 ui set_selected selected cve_list].
    rewrite Hl2, nth_error_app2 by lia. now rewrite Nat.sub_diag. }
  split.
  - rewrite (proj1 (keeps_inputs_calculate_epss en w3)). exact Hl2.
  - rewrite calculate_epss_sent, Hsel. reflexivity.
Qed.

(** ** [get_current_date] *)

Lemma digits_fixed_pad (j k : nat) (n : N) :
  (n < 10 ^ N.of_nat k)%N ->
  digits_fixed (j + k) n = repeat 48%N j ++ digits_fixed k n.
Proof.
  revert n; induction k as [|k IH]; intros n Hn.
  - assert (n = 0%N) by (simpl in Hn; lia). subst n.
    now rewrite Nat.add_0_r, digits_fixed_zero, app_nil_r.
  - rewrite Nat.add_succ_r. cbn [digits_fixed].
    rewrite IH, app_assoc; [reflexivity|].
    rewrite Nat2N.inj_succ, N.pow_succ_r' in Hn.
    apply N.Div0.div_lt_upper_bound. exact Hn.
Qed.

Lemma drop_zeros_nonzero (c : N) (r : pystr) :
  c <> 48%N -> drop_zeros (c :: r) = c :: r.
Proof.
  intros Hc. destruct r as [|c' r]; [reflexivity|].
  rewrite drop_zeros_cons. apply N.eqb_neq in Hc. now rewrite Hc.
Qed.

Lemma drop_zeros_repeat (j : nat) (c : N) (r : pystr) :
  drop_zeros (repeat 48%N j ++ c :: r) = drop_zeros (c :: r).
Proof.
  induction j as [|j IH]; [reflexivity|].
  cbn [repeat app]. destruct (repeat 48%N j ++ c :: r) as [|c' r'] eqn:E.
  - destruct j; discriminate.
  - rewrite drop_zeros_cons. cbn [N.eqb Pos.eqb]. exact IH.
Qed.

Lemma digits_fixed_head (k : nat) (n : N) :
  (10 ^ N.of_nat k <= n < 10 ^ N.of_nat (S k))%N ->
  exists c r, digits_fixed (S k) n = c :: r /\ c <> 48%N.
Proof.
  revert n; induction k as [|k IH]; intros n [Hlo Hhi].
  - exists (48 + n mod 10)%N, []. split; [reflexivity|].
    change (10 ^ N.of_nat 0)%N with 1%N in Hlo.
    change (10 ^ N.of_nat 1)%N with 10%N in Hhi.
    rewrite N.mod_small by exact Hhi. lia.
  - destruct (IH (n / 10)%N) as (c & r & E & Hc).
    + rewrite !Nat2N.inj_succ, !N.pow_succ_r' in *. split.
      * apply N.div_le_lower_bound; [lia | exact Hlo].
      * apply N.Div0.div_lt_upper_bound. exact Hhi.
    + exists c, (r ++ [(48 + n mod 10)%N]). split; [|exact Hc].
      change (digits_fixed (S (S k)) n)
        with (digits_fixed (S k) (n / 10) ++ [(48 + n mod 10)%N]).
      now rewrite E.
Qed.

(** A number of [k + 1] digits is written with [k + 1] digits. *)
Lemma str_of_N_digits_fixed (k : nat) (n : N) :
  (10 ^ N.of_nat k <= n < 10 ^ N.of_nat (S k))%N ->
  str_of_N n = digits_fixed (S k) n.
Proof.
  intros Hn. unfold str_of_N.
  assert (Hk : k < N.size_nat n).
  { assert (H2 : (2 ^ N.of_nat k <= 10 ^ N.of_nat k)%N)
      by (apply N.pow_le_mono_l; lia).
    assert (Hs : (n < 2 ^ N.of_nat (N.size_nat n))%N)
      by (destruct n as [|p]; [lia | apply pos_size_bound]).
    assert (Hlt : (2 ^ N.of_nat k < 2 ^ N.of_nat (N.size_nat n))%N) by lia.
    apply N.pow_lt_mono_r_iff in Hlt; lia. }
  replace (S (N.size_nat n)) with ((N.size_nat n - k) + S k) by lia.
  rewrite digits_fixed_pad by apply Hn.
  destruct (digits_fixed_head Hn) as (c & r & -> & Hc).
  now rewrite drop_zeros_repeat, drop_zeros_nonzero.
Qed.

(** X12. On a day of a year with four digits [get_current_date]
    returns ten characters, [YYYY-MM-DD]: four, two and two digits
    between hyphens, which read back as the year, the month and the
    day.  It changes nothing. *)
Theorem get_current_date_text (d : date) (net : request -> http_reply) (w : world) :
  four_digit_date d ->
  exists yyyy mm dd,
    get_current_date (env_on d net) w = (Ok (yyyy ++ hyphen :: mm ++ hyphen :: dd), w)
    /\ length yyyy = 4 /\ length mm = 2 /\ length dd = 2
    /\ all_ascii_digits yyyy /\ all_ascii_digits mm /\ all_ascii_digits dd
    /\ decimal_value yyyy = year d
    /\ decimal_value mm = month d
    /\ decimal_value dd = day d.
Proof.
  intros (Hy & Hm & Hd).
  exists (digits_fixed 4 (year d)), (digits_fixed 2 (month d)), (digits_fixed 2 (day d)).
  split.
  - unfold get_current_date, env_on, strftime_ymd. cbn [today].
    rewrite (@str_of_N_digits_fixed 3) by (simpl; lia). reflexivity.
  - rewrite !digits_fixed_length, !digits_fixed_value.
    repeat split; try apply digits_fixed_digits; apply N.mod_small; simpl; lia.
Qed.

(** ** [fetch_epss_data]: the three outcomes *)





(** ** [plot_bell_curve]: the exponents *)

Lemma exponents_in_range :
  forallb (fun x => SFleb (float_of_decimal (-125) (-1)) (exponent x)
                    && SFleb (exponent x) (float_of_Z 0)) sample_x = true.
Proof. vm_compute. reflexivity. Qed.

(** X14. At each of the 500 samples [plot_bell_curve] calls [np.exp]
    on a finite argument between -12.5 and 0: it is never given a
    NaN, an infinity or a positive number, whatever the score.  The
    divisor [2 * 0.1 ** 2] is the double 0.020000000000000004, not
    0.02. *)
Theorem bell_curve_exponents (epss_score : float) :
  curve_y (bell_curve epss_score) = map (fun x => np_exp (exponent x)) sample_x
  /\ Forall (fun x => SFleb (float_of_decimal (-125) (-1)) (exponent x) = true
                      /\ SFleb (exponent x) (float_of_Z 0) = true) sample_x
  /\ fmul (float_of_Z 2) (fmul f_0_1 f_0_1) = float_of_decimal 20000000000000004 (-18)
  /\ SFeqb (fmul (float_of_Z 2) (fmul f_0_1 f_0_1)) (float_of_decimal 2 (-2)) = false.
Proof.
  split; [reflexivity|]. split.
  - apply Forall_forall. intros x Hin.
    pose proof exponents_in_range as H. rewrite forallb_forall in H.
    apply H in Hin. now apply andb_true_iff in Hin.
  - split; vm_compute; reflexivity.
Qed.

(** ** [is_valid_cve] on ASCII *)

(** X15. On ASCII strings the verdict of [is_valid_cve] does not
    depend on the Unicode tables: it accepts exactly [CVE-], one or
    more of the digits 0 to 9, a hyphen, and one or more of the digits
    0 to 9. *)
Theorem is_valid_cve_ascii (cve : pystr) :
  is_ascii cve ->
  (is_valid_cve cve = Ok true <->
   exists year seq,
     cve = CVE_prefix ++ year ++ hyphen :: seq
     /\ year <> [] /\ seq <> []
     /\ all_ascii_digits year /\ all_ascii_digits seq).
Proof using isdigit_ascii.
  intros Ha. rewrite is_valid_cve_pattern. exact (ascii_pattern Ha).
Qed.

(** ** Sessions: the list *)

(** X16. In a session the list only grows at its end: nothing is
    removed, reordered or replaced, each press on [Add] appends at
    most one identifier, and each appended identifier is valid. *)
Theorem play_list (evs : list (event * env)) (w : world) :
  exists more,
    cve_list (ui (play evs w)) = cve_list (ui w) ++ more
    /\ length more <= add_clicks evs
    /\ Forall (fun t => is_valid_cve t = Ok true) more.
Proof.
  revert w. induction evs as [|[ev en] evs IH]; intros w.
  - exists []. split; [now rewrite app_nil_r|]. split; [apply Nat.le_0_l | constructor].
  - cbn [play]. destruct (IH (snd (handle ev en w))) as (more & -> & Hl & Hv).
    unfold add_clicks in *. cbn [filter fst].
    destruct (handle_list ev en w) as [E|(-> & t & Ht & E)]; rewrite E.
    + exists more. split; [reflexivity|]. split; [|exact Hv].
      destruct (is_add ev); cbn [length]; lia.
    + exists (t :: more). split; [now rewrite <- app_assoc|].
      split; [cbn [is_add length]; lia | now constructor].
Qed.

(** ** [calculate_epss] twice *)

(** X17. Nothing is cached: a second press on [Calculate] that meets
    the same network and date shows what the first press showed (the
    same label and the same plot) and, with a row selected, sends the
    same request a second time. *)
Theorem calculate_epss_again (en : env) (w : world) :
  let w1 := snd (calculate_epss en w) in
  let w2 := snd (calculate_epss en w1) in
  ui w2 = ui w1
  /\ fst (calculate_epss en w1) = fst (calculate_epss en w)
  /\ sent w2 = sent w ++ match selectedItems (ui w) with
                         | [] => []
                         | cve_id :: _ =>
                             [epss_request cve_id (today en);
                              epss_request cve_id (today en)]
                         end.
Proof.
  intros w1 w2.
  assert (Hsel : selectedItems (ui w1) = selectedItems (ui w)).
  { destruct (keeps_inputs_calculate_epss en w) as (Hl & _ & Hs).
    unfold selectedItems. fold w1 in Hl, Hs. now rewrite Hl, Hs. }
  assert (Hsent : sent w2 = sent w ++ match selectedItems (ui w) with
                         | [] => []
                         | cve_id :: _ =>
                             [epss_request cve_id (today en);
                              epss_request cve_id (today en)]
                         end).
  { unfold w2. rewrite calculate_epss_sent, Hsel. unfold w1.
    rewrite calculate_epss_sent.
    destruct (selectedItems (ui w)); now rewrite <- app_assoc. }
  enough (H : ui w2 = ui w1 /\ fst (calculate_epss en w1) = fst (calculate_epss en w))
    by (destruct H; auto).
  unfold w2. rewrite (calculate_epss_run en w1), Hsel.
  unfold w1. rewrite calculate_epss_run.
  destruct (selectedItems (ui w)) as [|cve_id rest]; [split; reflexivity|].
  destruct (fetch_epss_data_cases cve_id (today en) en w)
    as [(text & Ht & E)|[(result & Hd & E)|(e & Hf & E)]]; rewrite E;
    [rewrite show_result_run|rewrite show_result_run|].
  3: { cbn [snd fst]. rewrite (@fetch_epss_data_raises cve_id (today en) en _ e Hf).
       split; reflexivity. }
  - cbn [no_data truthy negb snd].
    rewrite (@fetch_epss_data_failure cve_id (today en) en _ text Ht).
    rewrite show_result_run. split; reflexivity.
  - destruct (no_data result) as [[|]|e0] eqn:En; cbv zeta beta;
      [ | destruct (read_field result (codes "epss")) as [s1|e1] eqn:E1;
          [ destruct (read_field result (codes "percentile")) as [s2|e2] eqn:E2;
            [ | destruct (is_parse_error e2) eqn:Ep ]
          | destruct (is_parse_error e1) eqn:Ep ]
        | ];
      cbn [snd];
      rewrite (@fetch_epss_data_delivers cve_id (today en) en _ result Hd);
      rewrite show_result_run, En; cbv zeta beta;
      rewrite ?E1, ?E2, ?Ep; split; reflexivity.
Qed.

(** ** [calculate_epss]: bodies at the edge *)

(** X18. JSON booleans pass as numbers: [float(True)] is 1.0 and
    [float(False)] is 0.0, so a body whose [epss] and [percentile] are
    booleans is displayed as scores; two [true] give
    [EPSS Score: 1.0000    Percentile: 100.00]. *)
Theorem show_result_booleans (e p : bool) (en : env) (w : world) :
  show_result (boolean_body e p) en w =
    (Ok tt,
     with_score (float_of_Z (if e then 1 else 0))
       (fmul (float_of_Z (if p then 1 else 0)) (float_of_Z 100)) w)
  /\ score_text (float_of_Z 1) (fmul (float_of_Z 1) (float_of_Z 100))
     = codes "EPSS Score: 1.0000    Percentile: 100.00"
  /\ score_text (float_of_Z 0) (fmul (float_of_Z 0) (float_of_Z 100))
     = codes "EPSS Score: 0.0000    Percentile: 0.00".
Proof.
  split; [|split; vm_compute; reflexivity].
  rewrite show_result_run. reflexivity.
Qed.


End Viewer.

(** * The statements at the instances *)

Lemma sample_isdigit_ascii (c : N) :
  (c < 128)%N -> sample_isdigit c = ascii_isdigit c.
Proof.
  intros H. unfold sample_isdigit.
  destruct (N.eqb_spec c 178); [lia|]. destruct (N.eqb_spec c 179); [lia|].
  destruct (N.eqb_spec c 185); [lia|]. destruct (N.leb_spec 1632 c); [lia|].
  now rewrite !orb_false_r.
Qed.

Lemma sample_isspace_ascii (c : N) :
  (c < 128)%N -> sample_isspace c = ascii_isspace c.
Proof.
  intros H. unfold sample_isspace.
  destruct (N.eqb_spec c 133); [lia|]. destruct (N.eqb_spec c 160); [lia|].
  destruct (N.eqb_spec c 12288); [lia|]. destruct (N.leb_spec 8192 c); [lia|].
  now rewrite !orb_false_r.
Qed.

Lemma sample_digit_not_space (c : N) :
  sample_isdigit c = true -> sample_isspace c = false.
Proof.
  unfold sample_isdigit, sample_isspace, ascii_isdigit, ascii_isspace.
  rewrite !orb_true_iff, !andb_true_iff, !N.eqb_eq, !N.leb_le.
  intros H.
  repeat match goal with
         | |- context [N.eqb c ?k] => destruct (N.eqb_spec c k); [lia|]
         | |- context [N.leb ?a ?b] => destruct (N.leb_spec a b)
         end; simpl; try reflexivity; lia.
Qed.

Lemma delivers_reply_of (status : Z) (reason : string) (j : json) (rq : request) :
  ((400 <=? status) && (status <? 600))%Z = false ->
  delivers (network (env_of (reply_of status reason j)) rq) j.
Proof. intros H. eexists. repeat split. exact H. Qed.

(** ** Identifiers *)

Example is_valid_cve_examples :
  is_valid_cve sample_isdigit (codes "CVE-2023-1234") = Ok true
  /\ is_valid_cve sample_isdigit (codes "CVE-abc-123") = Ok false
  /\ is_valid_cve sample_isdigit (codes "cve-2023-1234") = Ok false
  /\ is_valid_cve sample_isdigit (codes "CVE-2023") = Ok false
  /\ is_valid_cve sample_isdigit (codes "CVE-2023-1234-5") = Ok false
  /\ is_valid_cve sample_isdigit (codes "CVE--1234") = Ok false
  /\ is_valid_cve sample_isdigit (codes "") = Ok false.
Proof. repeat split; reflexivity. Qed.

(** C1 (amended) at [CVE-2023-1234]. *)
Lemma is_valid_cve_spec_witness :
  is_valid_cve sample_isdigit (codes "CVE-2023-1234") = Ok true
  /\ matches_cve_pattern sample_isdigit (codes "CVE-2023-1234")
  /\ matches_ascii_cve_pattern (codes "CVE-2023-1234").
Proof.
  pose proof (@is_valid_cve_spec sample_isdigit sample_isdigit_ascii
                (codes "CVE-2023-1234")) as (_ & _ & H & _ & _ & _ & Ha).
  split; [reflexivity|]. split; [apply H; reflexivity|].
  apply Ha; [repeat constructor | reflexivity].
Defined.

(** C1, as stated, fails when its digits are the digits 0 to 9:
    [str.isdigit] also accepts the superscript two and the
    Arabic-Indic digit one, and [is_valid_cve] accepts [CVE-],
    superscript two, hyphen, Arabic-Indic one, which is not of the
    form [CVE-<digits>-<digits>] with the digits 0 to 9. *)
Lemma other_digits_accepted :
  is_valid_cve sample_isdigit CVE_other_digits = Ok true
  /\ ~ matches_ascii_cve_pattern CVE_other_digits.
Proof.
  split; [reflexivity|].
  intros (y & q & E & Ny & _ & Hy & _).
  destruct y as [|c y]; [contradiction|].
  injection E as <- _. inversion Hy as [|? ? Hc _]. discriminate.
Qed.

(** C8 (amended) at the input [CVE-abc-123]. *)
Lemma add_cve_frame_witness :
  exists g',
    add_cve sample_isdigit sample_isspace offline (typed_world (codes "CVE-abc-123"))
    = (Ok tt, {| ui := g'; sent := [] |})
    /\ cve_list g' = [] /\ epss_score_label g' = invalid_cve_text.
Proof.
  destruct (@add_cve_frame sample_isdigit sample_isspace
              sample_isdigit_ascii sample_isspace_ascii sample_digit_not_space
              offline (typed_world (codes "CVE-abc-123")) false eq_refl)
    as (g' & H1 & _ & _ & (H2 & _ & H3) & _).
  exists g'. auto.
Defined.

(** C8, as stated, fails: the input [CVE-2023-1234] after a space
    fails validation, and is not rejected: its identifier is appended
    to the list. *)
Lemma padded_input_added :
  let w := typed_world (codes " CVE-2023-1234") in
  is_valid_cve sample_isdigit (cve_input (ui w)) = Ok false
  /\ cve_list (ui w) = []
  /\ add_cve sample_isdigit sample_isspace offline w
     = (Ok tt,
        {| ui := {| cve_input := []; cve_list := [codes "CVE-2023-1234"];
                    selected := None; epss_score_label := initial_label;
                    axes := None |};
           sent := [] |}).
Proof. repeat split. Qed.

(** C9 at the input [CVE-2023-1234] between two spaces and one. *)
Lemma add_cve_strips_witness :
  add_cve sample_isdigit sample_isspace offline
    (typed_world (codes "  CVE-2023-1234 "))
  = (Ok tt,
     {| ui := {| cve_input := []; cve_list := [codes "CVE-2023-1234"];
                 selected := None; epss_score_label := initial_label;
                 axes := None |};
        sent := [] |})
  /\ is_valid_cve sample_isdigit (codes "  CVE-2023-1234 ") = Ok false.
Proof.
  apply (@add_cve_strips sample_isdigit sample_isspace
           sample_isdigit_ascii sample_isspace_ascii sample_digit_not_space
           offline (typed_world (codes "  CVE-2023-1234 "))
           (codes "  ") (codes " ") (codes "CVE-2023-1234")).
  - repeat constructor.
  - repeat constructor.
  - discriminate.
  - reflexivity.
  - reflexivity.
Defined.

(** C10 after an identifier was typed and added. *)
Lemma cve_list_valid_witness :
  let step := handle sample_isdigit sample_isspace exp_series decimal_float_of_str in
  let w := snd (step ClickAdd offline
                  (snd (step (EditInput (codes " CVE-2023-1234")) offline
                          initial_world))) in
  cve_list (ui w) = [codes "CVE-2023-1234"]
  /\ Forall (fun t => is_valid_cve sample_isdigit t = Ok true) (cve_list (ui w)).
Proof.
  intros step w. split; [reflexivity|].
  apply (@cve_list_valid sample_isdigit sample_isspace exp_series
           decimal_float_of_str w).
  apply reachable_step, reachable_step, reachable_init.
Defined.

(** ** Queries *)

(** A status 500 is answered by the text of the [HTTPError]. *)
Example fetch_status_500 :
  fetch_epss_data (codes "CVE-2023-1234") (codes "2024-05-17")
    (env_of (Responded {| status_code := 500;
                          reason := codes "Internal Server Error";
                          url := query_url; content := NotJson [] |}))
    selected_world
  = (Ok JNull,
     with_label
       (codes "Error fetching data: 500 Server Error: Internal Server Error for url: "
        ++ query_url)
       sent_one).
Proof. vm_compute. reflexivity. Qed.

(** The body [{"data": []}] *)
Example calculate_empty_data :
  calculate_epss exp_series decimal_float_of_str
    (env_of (reply_of 200 "OK" (JDict [(codes "data", JList [])]))) selected_world
  = (Ok tt, with_label no_data_text sent_one).
Proof. vm_compute. reflexivity. Qed.

(** The body [{"data": [{"epss": "x"}]}] *)
Example calculate_malformed :
  calculate_epss exp_series decimal_float_of_str
    (env_of (reply_of 200 "OK"
       (JDict [(codes "data", JList [JDict [(codes "epss", JStr (codes "x"))]])])))
    selected_world
  = (Ok tt, with_label processing_error_text sent_one).
Proof. vm_compute. reflexivity. Qed.

(** The body [{"data": [{"epss": "0.5", "percentile": "0.9"}]}] *)
Example calculate_success :
  calculate_epss exp_series decimal_float_of_str
    (env_of (reply_of 200 "OK" (score_body (codes "0.5") (codes "0.9")))) selected_world
  = (Ok tt,
     with_score exp_series (float_of_decimal 5 (-1))
       (fmul (float_of_decimal 9 (-1)) (float_of_Z 100)) sent_one)
  /\ score_text (float_of_decimal 5 (-1))
       (fmul (float_of_decimal 9 (-1)) (float_of_Z 100))
     = codes "EPSS Score: 0.5000    Percentile: 90.00".
Proof.
  split; [|vm_compute; reflexivity].
  rewrite (@calculate_epss_delivered exp_series decimal_float_of_str
             (env_of (reply_of 200 "OK" (score_body (codes "0.5") (codes "0.9"))))
             selected_world (codes "CVE-2023-1234") []
             (score_body (codes "0.5") (codes "0.9")) eq_refl)
    by now apply delivers_reply_of.
  rewrite show_result_run. reflexivity.
Qed.

(** C5 at the body [{"data": [{"epss": "0.1234", "percentile": "0.5"}]}]. *)
Lemma show_result_success_witness :
  show_result exp_series decimal_float_of_str
    (score_body (codes "0.1234") (codes "0.5")) offline selected_world
  = (Ok tt,
     with_score exp_series (float_of_decimal 1234 (-4))
       (fmul (float_of_decimal 5 (-1)) (float_of_Z 100)) selected_world)
  /\ epss_score_label
       (ui (with_score exp_series (float_of_decimal 1234 (-4))
              (fmul (float_of_decimal 5 (-1)) (float_of_Z 100)) selected_world))
     = codes "EPSS Score: 0.1234    Percentile: 50.00".
Proof.
  destruct (@show_result_success exp_series decimal_float_of_str
              (score_body (codes "0.1234") (codes "0.5"))
              (float_of_decimal 1234 (-4)) (float_of_decimal 5 (-1))
              offline selected_world)
    as (H1 & H2 & _).
  - repeat split; vm_compute; reflexivity.
  - split; [exact H1|]. rewrite H2. vm_compute. reflexivity.
Defined.

(** C2 at a refused connection. *)
Lemma transport_error_overwritten_witness :
  exists w',
    calculate_epss exp_series decimal_float_of_str offline selected_world = (Ok tt, w')
    /\ epss_score_label (ui w') = no_data_text
    /\ epss_score_label (ui w') <> fetch_error_text (codes "Connection refused").
Proof.
  exact (@transport_error_overwritten exp_series decimal_float_of_str offline
           selected_world (codes "CVE-2023-1234") [] (codes "Connection refused")
           eq_refl eq_refl).
Defined.





(** ** Further statements at the instances *)

(** X1 at an input of a space, a no-break space and a tab. *)
Lemma add_cve_blank_witness :
  add_cve sample_isdigit sample_isspace offline (typed_world [32; 160; 9]%N)
  = (Ok tt, with_label invalid_cve_text (typed_world [32; 160; 9]%N)).
Proof.
  apply (@add_cve_blank sample_isdigit sample_isspace offline
           (typed_world [32; 160; 9]%N)).
  repeat constructor.
Defined.

(** X2 at the input [CVE-2023-1234], added twice. *)
Lemma add_cve_twice_witness :
  let w := typed_world (codes "CVE-2023-1234") in
  add_cve sample_isdigit sample_isspace offline
    (snd (add_cve sample_isdigit sample_isspace offline w))
  = (Ok tt,
     {| ui := {| cve_input := []; cve_list := [codes "CVE-2023-1234"];
                 selected := None; epss_score_label := invalid_cve_text;
                 axes := None |};
        sent := [] |}).
Proof.
  intros w.
  exact (@add_cve_twice sample_isdigit sample_isspace offline offline w eq_refl).
Defined.

(** X3 at [CVE-2023-1234]. *)
Lemma valid_two_hyphens_witness :
  count_occ N.eq_dec (codes "CVE-2023-1234") hyphen = 2
  /\ 7 <= length (codes "CVE-2023-1234").
Proof.
  exact (@valid_two_hyphens sample_isdigit sample_isdigit_ascii
           (codes "CVE-2023-1234") eq_refl).
Defined.

(** X6 at the body [{"data": [{"epss": null, "percentile": "0.9"}]}]. *)
Lemma calculate_epss_raises_witness :
  let en := env_of (reply_of 200 "OK" null_score_body) in
  calculate_epss exp_series decimal_float_of_str en selected_world
  = (Raise TypeError, sent_one)
  /\ exists cve_id rest,
       selectedItems (ui selected_world) = cve_id :: rest
       /\ sent_one
          = {| ui := ui selected_world;
               sent := sent selected_world
                       ++ [epss_request cve_id (today en)] |}
       /\ ((TypeError = ValueError \/ TypeError = RecursionError)
           /\ decoding_fails (network en (epss_request cve_id (today en))) TypeError
           \/ (TypeError = TypeError \/ TypeError = OverflowError)
              /\ exists result,
                   delivers (network en (epss_request cve_id (today en))) result).
Proof.
  intros en.
  assert (H : calculate_epss exp_series decimal_float_of_str en selected_world
              = (Raise TypeError, sent_one)) by (vm_compute; reflexivity).
  split; [exact H|].
  exact (@calculate_epss_raises exp_series decimal_float_of_str en
           selected_world sent_one TypeError H).
Defined.

(** A body with nesting beyond the recursion limit raises
    [RecursionError]. *)
Example calculate_nesting_too_deep :
  calculate_epss exp_series decimal_float_of_str
    (env_of (reply_undecoded NestingTooDeep)) selected_world
  = (Raise RecursionError, sent_one).
Proof. reflexivity. Qed.

(** An integer beyond the range of [float] raises [OverflowError]. *)
Example calculate_overflow :
  calculate_epss exp_series decimal_float_of_str
    (env_of (reply_of 200 "OK"
       (JDict [(codes "data",
                JList [JDict [(codes "epss", JInt (10 ^ 400));
                              (codes "percentile", JInt 1)]])])))
    selected_world
  = (Raise OverflowError, sent_one).
Proof. vm_compute. reflexivity. Qed.

(** X9 after an identifier was typed, added, selected and queried. *)
Lemma requests_valid_witness :
  let w := play sample_isdigit sample_isspace exp_series decimal_float_of_str
             [(EditInput (codes "CVE-2023-1234"), offline); (ClickAdd, offline);
              (SelectRow (Some 0), offline); (ClickCalculate, offline)]
             initial_world in
  sent w = [epss_request (codes "CVE-2023-1234") (codes "2024-05-17")]
  /\ Forall (valid_request sample_isdigit) (sent w).
Proof.
  intros w. split; [vm_compute; reflexivity|].
  apply (@requests_valid sample_isdigit sample_isspace exp_series
           decimal_float_of_str w).
  unfold w. cbn [play].
  apply reachable_step, reachable_step, reachable_step, reachable_step,
    reachable_init.
Defined.

(** X11 at the input [CVE-2023-1234] after a space, in the initial
    window. *)
Lemma add_select_calculate_witness :
  let w' := play sample_isdigit sample_isspace exp_series decimal_float_of_str
              [(EditInput (codes " CVE-2023-1234"), offline); (ClickAdd, offline);
               (SelectRow (Some 0), offline); (ClickCalculate, offline)]
              initial_world in
  cve_list (ui w') = [codes "CVE-2023-1234"]
  /\ sent w' = [epss_request (codes "CVE-2023-1234") (codes "2024-05-17")].
Proof.
  exact (@add_select_calculate sample_isdigit sample_isspace exp_series
           decimal_float_of_str offline offline offline offline initial_world
           (codes " CVE-2023-1234") eq_refl).
Defined.

(** X12 on 17 May 2024. *)
Lemma get_current_date_text_witness :
  let d := {| year := 2024; month := 5; day := 17 |} in
  strftime_ymd d = codes "2024-05-17"
  /\ exists yyyy mm dd,
       get_current_date (env_on d (network offline)) initial_world
       = (Ok (yyyy ++ hyphen :: mm ++ hyphen :: dd), initial_world)
       /\ length yyyy = 4 /\ length mm = 2 /\ length dd = 2
       /\ all_ascii_digits yyyy /\ all_ascii_digits mm /\ all_ascii_digits dd
       /\ decimal_value yyyy = year d
       /\ decimal_value mm = month d
       /\ decimal_value dd = day d.
Proof.
  intros d. split; [reflexivity|].
  apply (@get_current_date_text d (network offline) initial_world).
  unfold four_digit_date, d. cbn [year month day]. lia.
Defined.

(** X15 at [CVE-2023-1234]. *)
Lemma is_valid_cve_ascii_witness :
  is_valid_cve sample_isdigit (codes "CVE-2023-1234") = Ok true
  /\ exists year seq,
       codes "CVE-2023-1234" = CVE_prefix ++ year ++ hyphen :: seq
       /\ year <> [] /\ seq <> []
       /\ all_ascii_digits year /\ all_ascii_digits seq.
Proof.
  split; [reflexivity|].
  apply (proj1 (@is_valid_cve_ascii sample_isdigit sample_isdigit_ascii
                  (codes "CVE-2023-1234") ltac:(repeat constructor))).
  reflexivity.
Defined.
